(** * tcpchain.cc: a rate-controlled TCP source on a four-node chain

    Shallow embedding of [src/tcpchain.cc] (an ns-3 scenario script) and the
    properties of its traffic generator [MyApp], its congestion-window
    observer [CwndChange] and the topology assembled by [main].

    Conventions of the embedding:
    - [uint32_t] values are integers in [Z]; arithmetic performed in
      [uint32_t] wraps modulo [2^32] ([wrap32]);
    - a [double] is an IEEE 754 binary64 (the kernel's primitive floats), and
      a division in [double] is the IEEE division;
    - simulated time is a rational number of seconds; [Seconds], which turns
      a [double] into a simulated time, belongs to the simulator: it is a
      parameter of the model, and the examples are evaluated with a clock of
      nanosecond resolution;
    - a [Ptr<T>] that may be null is an [option];
    - the members of [MyApp] are methods over a [World] made of the
      scheduler and the application object; a method that dereferences a
      null pointer or produces a degenerate interval returns [Err]. *)

From Stdlib Require Import ZArith QArith Qround Lia Lqa List Bool.
From Stdlib Require String Ascii Floats.
Import ListNotations.

Local Open Scope Z_scope.

(** ** Machine integers *)

Definition wrap32 (z : Z) : Z := z mod 2 ^ 32.

Arguments wrap32 : simpl never.

(** ** Results of fallible operations *)

Inductive Fault : Type :=
| NullSocket          (* [m_socket->...] on a null [Ptr<Socket>] *)
| DegenerateInterval. (* [x / 0.0]: the interval is infinite or NaN *)

Inductive Res (A : Type) : Type :=
| Ok (a : A)
| Err (f : Fault).

Arguments Ok {A} a.
Arguments Err {A} f.

Definition bind {A B : Type} (r : Res A) (k : A -> Res B) : Res B :=
  match r with
  | Ok a => k a
  | Err f => Err f
  end.

(** ** The event scheduler *)

Module Simulator.

(** [ns3::Time], in seconds. *)
Definition Time : Type := Q.

(** The member functions of the program that are handed to the scheduler. *)
Inductive Callback : Type :=
| CbStartApplication
| CbStopApplication
| CbSendPacket.

Record EventImpl : Type := mkEvent
  { ev_ts : Time;
    ev_uid : nat;
    ev_cb : Callback;
    ev_cancel : bool }.

(** An [EventId] names an event by its uid; the default-constructed
    [EventId ()] names none. *)
Definition EventId : Type := option nat.

(** Modelled from the spec: the Event Scheduler is an external collaborator
    (ns-3's [Simulator]); it "maintains a time-ordered queue of callbacks",
    "events scheduled for the same timestamp execute in the order they were
    scheduled", and cancellation is "a tombstone flag checked at pop time".
    [sc_events] is kept ordered by (time, uid); [sc_uid] is the next uid. *)
Record Scheduler : Type := mkScheduler
  { sc_now : Time;
    sc_uid : nat;
    sc_events : list EventImpl }.

Definition empty : Scheduler :=
  {| sc_now := 0%Q; sc_uid := 0%nat; sc_events := [] |}.

Definition Now (s : Scheduler) : Time := sc_now s.

(** Insertion after every event whose time is not later: the new event has
    the largest uid, so the queue stays ordered by (time, uid). *)
Fixpoint insert_event (e : EventImpl) (q : list EventImpl) : list EventImpl :=
  match q with
  | [] => [e]
  | x :: q' =>
      if Qle_bool (ev_ts x) (ev_ts e) then x :: insert_event e q'
      else e :: x :: q'
  end.

(** [Simulator::Schedule (delay, cb)]. *)
Definition Schedule (delay : Time) (cb : Callback) (s : Scheduler)
  : EventId * Scheduler :=
  let e := {| ev_ts := (sc_now s + delay)%Q; ev_uid := sc_uid s;
              ev_cb := cb; ev_cancel := false |} in
  (Some (sc_uid s),
   {| sc_now := sc_now s; sc_uid := S (sc_uid s);
      sc_events := insert_event e (sc_events s) |}).

Definition names (id : EventId) (e : EventImpl) : bool :=
  match id with
  | Some u => Nat.eqb u (ev_uid e)
  | None => false
  end.

(** [EventId::IsRunning]: the event is still queued and not cancelled. An
    event that fired has left the queue. *)
Definition IsRunning (id : EventId) (s : Scheduler) : bool :=
  existsb (fun e => names id e && negb (ev_cancel e)) (sc_events s).

Definition cancel_event (id : EventId) (e : EventImpl) : EventImpl :=
  if names id e
  then {| ev_ts := ev_ts e; ev_uid := ev_uid e; ev_cb := ev_cb e;
          ev_cancel := true |}
  else e.

(** [Simulator::Cancel (id)]: a no-op on an event that is not pending. *)
Definition Cancel (id : EventId) (s : Scheduler) : Scheduler :=
  {| sc_now := sc_now s; sc_uid := sc_uid s;
     sc_events := map (cancel_event id) (sc_events s) |}.

End Simulator.

Import Simulator.

(** ** Addresses and the socket *)

Definition Ipv4Address : Type := Z.

Definition ipv4 (a b c d : Z) : Ipv4Address := ((a * 256 + b) * 256 + c) * 256 + d.

(** [Ipv4Address::GetAny ()] is 0.0.0.0. *)
Definition GetAny : Ipv4Address := 0.

(** [Address]: an [InetSocketAddress] (address, port), or the empty
    [Address ()]. *)
Definition Address : Type := option (Ipv4Address * Z).

(** Modelled from the spec: the socket is an external collaborator, "a
    connection-oriented send/receive conduit"; the generator ignores every
    return value, so the model keeps what the calls leave behind: whether the
    socket was bound, the peer it was connected to, whether it was closed, and
    the packets handed to [Send], newest first, each with the simulated time
    of the call and its size in bytes. *)
Record Socket : Type := mkSocket
  { sk_node : nat;
    sk_bound : bool;
    sk_peer : Address;
    sk_closed : bool;
    sk_sent : list (Time * Z) }.

Definition CreateSocket (node : nat) : Socket :=
  {| sk_node := node; sk_bound := false; sk_peer := None; sk_closed := false;
     sk_sent := [] |}.

Definition Socket_Bind (k : Socket) : Socket :=
  {| sk_node := sk_node k; sk_bound := true; sk_peer := sk_peer k;
     sk_closed := sk_closed k; sk_sent := sk_sent k |}.

Definition Socket_Connect (peer : Address) (k : Socket) : Socket :=
  {| sk_node := sk_node k; sk_bound := sk_bound k; sk_peer := peer;
     sk_closed := sk_closed k; sk_sent := sk_sent k |}.

Definition Socket_Send (now : Time) (size : Z) (k : Socket) : Socket :=
  {| sk_node := sk_node k; sk_bound := sk_bound k; sk_peer := sk_peer k;
     sk_closed := sk_closed k; sk_sent := (now, size) :: sk_sent k |}.

Definition Socket_Close (k : Socket) : Socket :=
  {| sk_node := sk_node k; sk_bound := sk_bound k; sk_peer := sk_peer k;
     sk_closed := true; sk_sent := sk_sent k |}.

(** ** The traffic generator [MyApp] *)

Record MyApp : Type := mkMyApp
  { m_socket : option Socket;
    m_peer : Address;
    m_packetSize : Z;
    m_nPackets : Z;
    m_dataRate : Z;          (* [DataRate::GetBitRate ()], bits per second *)
    m_sendEvent : EventId;
    m_running : bool;
    m_packetsSent : Z }.

(** [MyApp::MyApp ()]. *)
Definition MyApp_new : MyApp :=
  {| m_socket := None; m_peer := None; m_packetSize := 0; m_nPackets := 0;
     m_dataRate := 0; m_sendEvent := None; m_running := false;
     m_packetsSent := 0 |}.

(** [MyApp::Setup]. *)
Definition Setup (socket : option Socket) (address : Address)
  (packetSize nPackets : Z) (dataRate : Z) (a : MyApp) : MyApp :=
  {| m_socket := socket; m_peer := address; m_packetSize := packetSize;
     m_nPackets := nPackets; m_dataRate := dataRate;
     m_sendEvent := m_sendEvent a; m_running := m_running a;
     m_packetsSent := m_packetsSent a |}.

Record World : Type := mkWorld
  { w_sched : Scheduler;
    w_app : MyApp }.

(** ** Doubles and the conversion to simulated time *)

(** [double]: IEEE 754 binary64. *)
Definition double : Type := PrimFloat.float.

(** The conversion of an integer to [double] ([static_cast<double> (y)], and
    the promotion of the integer operand of a mixed division): the nearest
    double, ties to even. *)
Definition Z_to_double (z : Z) : double :=
  FloatOps.SF2Prim
    (SpecFloat.binary_normalize FloatOps.prec FloatOps.emax z 0 false).

(** The quotient of two integers, computed in [double]. *)
Definition double_quot (x y : Z) : double :=
  PrimFloat.div (Z_to_double x) (Z_to_double y).

(** [x / static_cast<double> (y)]: [None] stands for the infinite or NaN
    quotient of a division by zero. *)
Definition double_div (x y : Z) : option double :=
  if y =? 0 then None else Some (double_quot x y).

(** The rational number a finite double stands for. *)
Definition double_value (x : double) : option Q :=
  match FloatOps.Prim2SF x with
  | SpecFloat.S754_zero _ => Some 0%Q
  | SpecFloat.S754_finite s m e =>
      Some ((if s then - inject_Z (Zpos m) else inject_Z (Zpos m)) * 2 ^ e)%Q
  | _ => None
  end.

Definition nanosecond : Q := 1 # 1000000000.

(** The seconds a 64-bit count of nanoseconds can hold. *)
Definition max_seconds : Q := 9223372036.

(** A conversion of seconds to simulated time that is within one nanosecond
    of the double it is given, for the doubles in the range of the clock. *)
Definition ns_accurate (Seconds : double -> Time) : Prop :=
  forall (x : double) (v : Q),
    double_value x = Some v ->
    (- max_seconds <= v)%Q -> (v <= max_seconds)%Q ->
    (v - nanosecond <= Seconds x)%Q /\ (Seconds x <= v + nanosecond)%Q.

(** Modelled from the spec: "all timestamps are simulated (logical) time";
    the clock is the simulator's. This conversion is the one of a clock that
    counts whole nanoseconds (the default resolution of ns-3) and truncates;
    the examples are evaluated with it. *)
Definition Seconds_ns (x : double) : Time :=
  match double_value x with
  | Some v =>
      (inject_Z (Qfloor (v * inject_Z 1000000000)) / inject_Z 1000000000)%Q
  | None => 0%Q
  end.

Module Text.
Import String.
Local Open Scope string_scope.

(** The text [RxDrop] writes before the time. *)
Definition rxdrop_text : string := "RxDrop at ".

End Text.

Section Model.

(** Modelled from the spec: [Seconds] makes a simulated time of a [double]
    given in seconds; it belongs to the simulator, whose clock resolution and
    rounding are not part of the repository. It is a parameter: what follows
    holds for every such conversion. *)
Variable Seconds : double -> Time.

(** [MyApp::ScheduleTx]. The product [m_packetSize * 8] is computed in
    [uint32_t]; only the divisor is converted to [double]. *)
Definition ScheduleTx (w : World) : Res World :=
  let a := w_app w in
  if m_running a then
    match double_div (wrap32 (m_packetSize a * 8)) (m_dataRate a) with
    | None => Err DegenerateInterval
    | Some x =>
        let tNext := Seconds x in
        let '(id, s) := Schedule tNext CbSendPacket (w_sched w) in
        Ok {| w_sched := s;
              w_app := {| m_socket := m_socket a; m_peer := m_peer a;
                          m_packetSize := m_packetSize a;
                          m_nPackets := m_nPackets a;
                          m_dataRate := m_dataRate a; m_sendEvent := id;
                          m_running := m_running a;
                          m_packetsSent := m_packetsSent a |} |}
    end
  else Ok w.

(** [MyApp::SendPacket]: [++m_packetsSent] is evaluated before the
    comparison with [m_nPackets]. *)
Definition SendPacket (w : World) : Res World :=
  let a := w_app w in
  match m_socket a with
  | None => Err NullSocket
  | Some k =>
      let k' := Socket_Send (Now (w_sched w)) (m_packetSize a) k in
      let sent := wrap32 (m_packetsSent a + 1) in
      let w' := {| w_sched := w_sched w;
                   w_app := {| m_socket := Some k'; m_peer := m_peer a;
                               m_packetSize := m_packetSize a;
                               m_nPackets := m_nPackets a;
                               m_dataRate := m_dataRate a;
                               m_sendEvent := m_sendEvent a;
                               m_running := m_running a;
                               m_packetsSent := sent |} |} in
      if sent <? m_nPackets a then ScheduleTx w' else Ok w'
  end.

(** [MyApp::StartApplication]. *)
Definition StartApplication (w : World) : Res World :=
  let a := w_app w in
  match m_socket a with
  | None => Err NullSocket
  | Some k =>
      let k' := Socket_Connect (m_peer a) (Socket_Bind k) in
      SendPacket {| w_sched := w_sched w;
                    w_app := {| m_socket := Some k'; m_peer := m_peer a;
                                m_packetSize := m_packetSize a;
                                m_nPackets := m_nPackets a;
                                m_dataRate := m_dataRate a;
                                m_sendEvent := m_sendEvent a;
                                m_running := true;
                                m_packetsSent := 0 |} |}
  end.

(** [MyApp::StopApplication]: guarded against a non-pending event and a null
    socket, so it cannot fault. *)
Definition StopApplication (w : World) : World :=
  let a := w_app w in
  let s := if IsRunning (m_sendEvent a) (w_sched w)
           then Cancel (m_sendEvent a) (w_sched w)
           else w_sched w in
  let k := match m_socket a with
           | Some k => Some (Socket_Close k)
           | None => None
           end in
  {| w_sched := s;
     w_app := {| m_socket := k; m_peer := m_peer a;
                 m_packetSize := m_packetSize a; m_nPackets := m_nPackets a;
                 m_dataRate := m_dataRate a; m_sendEvent := m_sendEvent a;
                 m_running := false; m_packetsSent := m_packetsSent a |} |}.

(** ** Running the scheduler *)

Definition Invoke (cb : Callback) (w : World) : Res World :=
  match cb with
  | CbStartApplication => StartApplication w
  | CbStopApplication => Ok (StopApplication w)
  | CbSendPacket => SendPacket w
  end.

(** Modelled from the spec: "the Event Scheduler pops the earliest-pending
    event and runs its callback to completion before considering the next";
    the clock jumps to the time of the popped event, and a cancelled event is
    dropped without running. [Ok None]: the queue is empty. *)
Definition ProcessOneEvent (w : World) : Res (option World) :=
  match sc_events (w_sched w) with
  | [] => Ok None
  | e :: q =>
      let w1 := {| w_sched := {| sc_now := ev_ts e;
                                 sc_uid := sc_uid (w_sched w);
                                 sc_events := q |};
                   w_app := w_app w |} in
      if ev_cancel e then Ok (Some w1)
      else bind (Invoke (ev_cb e) w1) (fun w2 => Ok (Some w2))
  end.

(** [Simulator::Run], bounded by [fuel] events: [None] when the fuel ran out
    with events still queued. *)
Fixpoint Run (fuel : nat) (w : World) : option (Res World) :=
  match ProcessOneEvent w with
  | Err f => Some (Err f)
  | Ok None => Some (Ok w)
  | Ok (Some w') =>
      match fuel with
      | O => None
      | S fuel' => Run fuel' w'
      end
  end.

(** Exactly [k] events processed (fewer if the queue empties first). *)
Fixpoint Steps (k : nat) (w : World) : Res World :=
  match k with
  | O => Ok w
  | S k' =>
      match ProcessOneEvent w with
      | Err f => Err f
      | Ok None => Ok w
      | Ok (Some w') => Steps k' w'
      end
  end.

(** Modelled from the spec: the application framework (ns-3's [Application])
    is an external collaborator; [SetStartTime] and [SetStopTime] make it
    schedule the start and the stop of the application at those times,
    the start first. *)
Definition SetStartTime (t : Time) (s : Scheduler) : Scheduler :=
  snd (Schedule t CbStartApplication s).

Definition SetStopTime (t : Time) (s : Scheduler) : Scheduler :=
  snd (Schedule t CbStopApplication s).

(** What an observer of the socket sees. *)
Definition socket_log (w : World) : list (Time * Z) :=
  match m_socket (w_app w) with
  | Some k => rev (sk_sent k)
  | None => []
  end.

Definition tx_times (w : World) : list Time := map fst (socket_log w).

Definition packets_on_wire (w : World) : nat := List.length (socket_log w).

(** The send events that are queued and not cancelled. *)
Definition live_send (e : EventImpl) : bool :=
  match ev_cb e with
  | CbSendPacket => negb (ev_cancel e)
  | _ => false
  end.

Definition pending_sends (w : World) : list EventImpl :=
  filter live_send (sc_events (w_sched w)).

(** One generator with a socket on node [node], configured and given its
    start and stop times, before the scheduler runs. *)
Definition generator_world (node : nat) (peer : Address)
  (packetSize nPackets dataRate : Z) (start stop : Time) : World :=
  {| w_sched := SetStopTime stop (SetStartTime start Simulator.empty);
     w_app := Setup (Some (CreateSocket node)) peer packetSize nPackets
                dataRate MyApp_new |}.

(** ** The congestion-window observer *)

(** What [operator<<] is given, in the order written. *)
Inductive Token : Type :=
| TDouble (x : Q)
| TUint (n : Z)
| TStr (s : String.string)
| TEndl.

Definition ostream : Type := list Token.

Definition tab : String.string :=
  String.String (Ascii.ascii_of_nat 9) String.EmptyString.

(** The scheduler and the application, the console ([NS_LOG_UNCOND] writes
    to [std::clog]) and the stream bound to the observer (the file
    [sixth.cwnd]). *)
Record System : Type := mkSystem
  { sys_world : World;
    sys_clog : ostream;
    sys_stream : ostream }.

(** [CwndChange (stream, oldCwnd, newCwnd)]; [NS_LOG_UNCOND (msg)] is
    [std::clog << msg << std::endl]. *)
Definition CwndChange (oldCwnd newCwnd : Z) (y : System) : System :=
  let now := Now (w_sched (sys_world y)) in
  {| sys_world := sys_world y;
     sys_clog := sys_clog y ++ [TDouble now; TStr tab; TUint newCwnd; TEndl];
     sys_stream := sys_stream y ++
       [TDouble now; TStr tab; TUint oldCwnd; TStr tab; TUint newCwnd; TEndl] |}.

Definition is_blank (t : Token) : bool :=
  match t with
  | TStr s => String.eqb s tab
  | _ => false
  end.

(** The lines of a stream, each as its whitespace-separated fields. *)
Fixpoint lines_from (cur : list Token) (o : ostream) : list (list Token) :=
  match o with
  | [] => match cur with [] => [] | _ => [rev cur] end
  | TEndl :: o' => rev cur :: lines_from [] o'
  | t :: o' => lines_from (if is_blank t then cur else t :: cur) o'
  end.

Definition lines (o : ostream) : list (list Token) := lines_from [] o.


(** ** The topology and the scenario of [main] *)

(** The attribute [ErrorRate] of the error model, as the decimal the source
    writes ([DoubleValue (0.00001)]). The model itself is the simulator's:
    what it does with the rate, and in which unit, is not embedded. *)
Record RateErrorModel : Type := mkRateErrorModel
  { ErrorRate : Q }.

Record NetDevice : Type := mkNetDevice
  { nd_node : nat;
    nd_channel : nat;
    nd_DataRate : Z;                             (* bits per second *)
    nd_ReceiveErrorModel : option RateErrorModel;
    nd_address : option (Ipv4Address * Ipv4Address) (* address, network *) }.

Record Channel : Type := mkChannel
  { ch_Delay : Q;                                (* seconds *)
    ch_a : nat;                                  (* the nodes joined *)
    ch_b : nat }.

Record Net : Type := mkNet
  { n_nodes : nat;
    n_devices : list NetDevice;
    n_channels : list Channel }.

Definition NodeContainer : Type := list nat.
Definition NetDeviceContainer : Type := list nat.
Definition Ipv4InterfaceContainer : Type := list Ipv4Address.

Definition empty_net : Net :=
  {| n_nodes := 0; n_devices := []; n_channels := [] |}.

(** [NodeContainer::Create (1)]. *)
Definition Create1 (net : Net) : NodeContainer * Net :=
  ([n_nodes net],
   {| n_nodes := S (n_nodes net); n_devices := n_devices net;
      n_channels := n_channels net |}).

Record PointToPointHelper : Type := mkP2P
  { p2p_DataRate : Z;
    p2p_Delay : Q }.

(** Modelled from the spec: [PointToPointHelper::Install] on a container of
    two nodes makes "a full-duplex channel between exactly two nodes,
    attributed with bandwidth and propagation delay", with one device on each
    node; the devices are returned in the order of the nodes. *)
Definition Install (h : PointToPointHelper) (c : NodeContainer) (net : Net)
  : NetDeviceContainer * Net :=
  let a := nth 0 c 0%nat in
  let b := nth 1 c 0%nat in
  let ch := List.length (n_channels net) in
  let d := List.length (n_devices net) in
  let dev n := {| nd_node := n; nd_channel := ch;
                  nd_DataRate := p2p_DataRate h;
                  nd_ReceiveErrorModel := None; nd_address := None |} in
  ([d; S d],
   {| n_nodes := n_nodes net;
      n_devices := n_devices net ++ [dev a; dev b];
      n_channels := n_channels net ++
        [{| ch_Delay := p2p_Delay h; ch_a := a; ch_b := b |}] |}).

Fixpoint update_nth {A : Type} (i : nat) (f : A -> A) (l : list A) : list A :=
  match l, i with
  | [], _ => []
  | x :: l', O => f x :: l'
  | x :: l', S i' => x :: update_nth i' f l'
  end.

(** [dev->SetAttribute ("ReceiveErrorModel", PointerValue (em))]. *)
Definition SetReceiveErrorModel (dev : nat) (em : RateErrorModel) (net : Net)
  : Net :=
  {| n_nodes := n_nodes net;
     n_devices := update_nth dev
       (fun d => {| nd_node := nd_node d; nd_channel := nd_channel d;
                    nd_DataRate := nd_DataRate d;
                    nd_ReceiveErrorModel := Some em;
                    nd_address := nd_address d |}) (n_devices net);
     n_channels := n_channels net |}.

(** Modelled from the spec: the address helper is an external collaborator
    that "assigns each link a distinct address block"; after
    [SetBase (network, mask)], [Assign] gives the devices of the container
    the hosts 1, 2, ... of the network, in order. *)
Fixpoint Assign_from (network : Ipv4Address) (host : Z)
  (c : NetDeviceContainer) (net : Net) : Ipv4InterfaceContainer * Net :=
  match c with
  | [] => ([], net)
  | dev :: c' =>
      let net1 :=
        {| n_nodes := n_nodes net;
           n_devices := update_nth dev
             (fun d => {| nd_node := nd_node d; nd_channel := nd_channel d;
                          nd_DataRate := nd_DataRate d;
                          nd_ReceiveErrorModel := nd_ReceiveErrorModel d;
                          nd_address := Some (network + host, network) |})
             (n_devices net);
           n_channels := n_channels net |} in
      let '(rest, net2) := Assign_from network (host + 1) c' net1 in
      (network + host :: rest, net2)
  end.

Definition Assign (network : Ipv4Address) (c : NetDeviceContainer) (net : Net)
  : Ipv4InterfaceContainer * Net :=
  Assign_from network 1 c net.

Definition GetAddress (i : Ipv4InterfaceContainer) (k : nat) : Ipv4Address :=
  nth k i 0.

(** A [PacketSink] installed on a node, listening on a local address. *)
Record PacketSink : Type := mkPacketSink
  { snk_node : nat;
    snk_local : Address;
    snk_start : Time;
    snk_stop : Time }.

(** A [MyApp] added to a node. *)
Record Generator : Type := mkGenerator
  { gen_node : nat;
    gen_app : MyApp;
    gen_start : Time;
    gen_stop : Time }.

Record Scenario : Type := mkScenario
  { s_net : Net;
    s_sinks : list PacketSink;
    s_generators : list Generator;
    s_lossy : nat }.   (* the device [ndc_hub_3.Get (1)] *)

(** [main], from the creation of the nodes to the start and stop times of
    the applications. The protocol stacks, the routing tables, the trace
    connections, the animation and [Simulator::Stop] are calls into the
    simulator that leave no mark on this record. *)
Definition main : Scenario :=
  let net := empty_net in
  let '(term_0, net) := Create1 net in
  let '(term_1, net) := Create1 net in
  let '(term_2, net) := Create1 net in
  let '(term_3, net) := Create1 net in
  let pointToPoint_1 := {| p2p_DataRate := 5000000; p2p_Delay := 2 # 1000 |} in
  let pointToPoint_2 := {| p2p_DataRate := 5000000; p2p_Delay := 2 # 1000 |} in
  let pointToPoint_3 := {| p2p_DataRate := 5000000; p2p_Delay := 2 # 1000 |} in
  let all_hub_3 := term_0 ++ term_1 in
  let '(ndc_hub_3, net) := Install pointToPoint_1 all_hub_3 net in
  let all_hub_4 := term_1 ++ term_2 in
  let '(ndc_hub_4, net) := Install pointToPoint_2 all_hub_4 net in
  let all_hub_5 := term_2 ++ term_3 in
  let '(ndc_hub_5, net) := Install pointToPoint_3 all_hub_5 net in
  let em := {| ErrorRate := 1 # 100000 |} in
  let net := SetReceiveErrorModel (nth 1 ndc_hub_3 0%nat) em net in
  let '(iface_ndc_hub_3, net) := Assign (ipv4 10 0 0 0) ndc_hub_3 net in
  let '(iface_ndc_hub_4, net) := Assign (ipv4 10 0 1 0) ndc_hub_4 net in
  let '(iface_ndc_hub_5, net) := Assign (ipv4 10 0 2 0) ndc_hub_5 net in
  let port_tcp_0 := 1090 in
  let sinkAddress : Address := Some (GetAddress iface_ndc_hub_3 1, port_tcp_0) in
  let sinkLocalAddress_tcp_0 : Address := Some (GetAny, port_tcp_0) in
  let sinkApp_tcp_0 :=
    map (fun n => {| snk_node := n; snk_local := sinkLocalAddress_tcp_0;
                     snk_start := Seconds (Z_to_double 0);
                     snk_stop := Seconds (Z_to_double 20) |})
      term_3 in
  let ns3TcpSocket := CreateSocket (nth 0 term_3 0%nat) in
  let app := Setup (Some ns3TcpSocket) sinkAddress 1040 1000 1000000 MyApp_new in
  {| s_net := net;
     s_sinks := sinkApp_tcp_0;
     s_generators := [{| gen_node := nth 0 term_3 0%nat; gen_app := app;
                         gen_start := Seconds (Z_to_double 0);
                         gen_stop := Seconds (Z_to_double 20) |}];
     s_lossy := nth 1 ndc_hub_3 0%nat |}.

(** The world the scheduler runs for a generator of a scenario. *)
Definition world_of (g : Generator) : World :=
  {| w_sched := SetStopTime (gen_stop g) (SetStartTime (gen_start g)
                                            Simulator.empty);
     w_app := gen_app g |}.

(** The node that owns an address. *)
Definition node_of_address (net : Net) (ip : Ipv4Address) : option nat :=
  match find (fun d => match nd_address d with
                       | Some (a, _) => a =? ip
                       | None => false
                       end) (n_devices net) with
  | Some d => Some (nd_node d)
  | None => None
  end.

(** A sink listens at [addr] when the ports agree and the address is its
    local address or, the local address being the wildcard, an address of
    the sink's node. *)
Definition listens_at (net : Net) (k : PacketSink) (addr : Address) : bool :=
  match snk_local k, addr with
  | Some (lip, lport), Some (ip, port) =>
      (lport =? port) &&
      ((lip =? ip) ||
       ((lip =? GetAny) &&
        match node_of_address net ip with
        | Some n => Nat.eqb n (snk_node k)
        | None => false
        end))
  | _, _ => false
  end.

(** Modelled from the spec: the "computation of global forwarding state" is
    an external collaborator; on a chain whose channel [k] joins the nodes
    [k] and [k + 1] the only loop-free path between two nodes crosses the
    channels between them, in order. *)
Definition route (src dst : nat) : list nat :=
  if Nat.leb src dst then seq src (dst - src)
  else rev (seq dst (src - dst)).

(** The channel that carries the error model. *)
Definition lossy_channel (s : Scenario) : option nat :=
  match nth_error (n_devices (s_net s)) (s_lossy s) with
  | Some d => Some (nd_channel d)
  | None => None
  end.

(** The network part of a /24 address. *)
Definition network24 (ip : Ipv4Address) : Z := ip / 256 * 256.

(** ** The invariant of the generator and its life cycle *)

(** The invariant the code keeps: the sent counter is at most the packet
    count, and the event that the handle [m_sendEvent] names is pending
    ([IsRunning]) only while the application is running and more packets
    remain. The code never resets [m_sendEvent]: the handle itself stays set
    once a send event was scheduled. *)
Definition app_invariant (w : World) : Prop :=
  m_packetsSent (w_app w) <= m_nPackets (w_app w) /\
  (IsRunning (m_sendEvent (w_app w)) (w_sched w) = true ->
   m_running (w_app w) = true /\
   m_packetsSent (w_app w) < m_nPackets (w_app w)).


Definition is_start (e : EventImpl) : bool :=
  match ev_cb e with
  | CbStartApplication => true
  | _ => false
  end.

(** What the framework may have queued before the scheduler runs: starts and
    stops of the application only, with distinct uids below the next uid, and
    at most [starts] starts. *)
Record agenda (starts : nat) (s : Scheduler) : Prop := mkAgenda
  { ag_cb : forall e, In e (sc_events s) -> ev_cb e <> CbSendPacket;
    ag_starts : (List.length (filter is_start (sc_events s)) <= starts)%nat;
    ag_uid : forall e, In e (sc_events s) -> (ev_uid e < sc_uid s)%nat;
    ag_nodup : NoDup (map ev_uid (sc_events s)) }.

(** [Created -> Configured -> Running -> Stopped]: the application is
    configured once, before the scheduler runs, with a packet count in
    [1, 2^32); it is started at most once, and stopped any number of times;
    every other step is an event popped by the scheduler. *)
Inductive lifecycle : World -> Prop :=
| lc_configured (s : Scheduler) (socket : option Socket) (peer : Address)
    (packetSize nPackets dataRate : Z) :
    agenda 1 s -> 0 < nPackets < 2 ^ 32 ->
    lifecycle {| w_sched := s;
                 w_app := Setup socket peer packetSize nPackets dataRate
                            MyApp_new |}
| lc_event (w w' : World) :
    lifecycle w -> ProcessOneEvent w = Ok (Some w') -> lifecycle w'.

(** What holds of the queue [q], the next uid [u] and the application [a]
    along the life cycle. *)
Record life (u : nat) (q : list EventImpl) (a : MyApp) : Prop := mkLife
  { li_uid : forall e, In e q -> (ev_uid e < u)%nat;
    li_nodup : NoDup (map ev_uid q);
    li_handle : forall e, In e q -> names (m_sendEvent a) e = true ->
                          ev_cb e = CbSendPacket;
    li_live : forall e, In e q -> live_send e = true ->
                        names (m_sendEvent a) e = true;
    li_starts : (List.length (filter is_start q) <= 1)%nat;
    li_unstarted : forall e e', In e q -> is_start e = true -> In e' q ->
                                live_send e' = false;
    li_n : 0 < m_nPackets a < 2 ^ 32;
    li_sent : 0 <= m_packetsSent a <= m_nPackets a;
    li_pending : forall e, In e q -> live_send e = true ->
                           m_running a = true /\
                           m_packetsSent a < m_nPackets a }.

Definition life_of (w : World) : Prop :=
  life (sc_uid (w_sched w)) (sc_events (w_sched w)) (w_app w).

(** ** The send times of a run *)

(** The interval as the spec words it: [packetSize * 8 / dataRate] seconds. *)
Definition spec_interval (packetSize dataRate : Z) : Q :=
  (inject_Z (packetSize * 8) / inject_Z dataRate)%Q.

(** The interval as [ScheduleTx] computes it for a non-zero rate: the
    product in [uint32_t], the quotient in [double], then [Seconds]. *)
Definition code_interval (packetSize dataRate : Z) : Time :=
  Seconds (double_quot (wrap32 (packetSize * 8)) dataRate).

(** The same without the wrap: [packetSize * 8 / dataRate] computed in
    [double] and made a simulated time. *)
Definition rounded_interval (packetSize dataRate : Z) : Time :=
  Seconds (double_quot (packetSize * 8) dataRate).

(** The spec's "number of intervals that fit before stop": the whole
    intervals of length [i] between [start] and [stop]. *)
Definition intervals_that_fit (start stop : Time) (i : Q) : Z :=
  Qfloor ((stop - start) / i)%Q.

(** The spec's count of packets sent: all of them when the run lasts at least
    [packetCount] intervals, otherwise the intervals that fit. *)
Definition spec_packets_sent (packetSize nPackets dataRate : Z)
  (start stop : Time) : Z :=
  let i := spec_interval packetSize dataRate in
  if Qle_bool (inject_Z nPackets * i) (stop - start) then nPackets
  else intervals_that_fit start stop i.

(** The [k]-th term of the arithmetic progression from [start] with
    difference [i]. *)
Definition progression (start i : Q) (k : nat) : Q :=
  (start + inject_Z (Z.of_nat k) * i)%Q.

Section Chain.

Variables (node : nat) (peer : Address) (packetSize nPackets dataRate : Z).
Variables (start stop : Time).

(** The time of the [k]-th transmission as the scheduler computes it: the
    start event is scheduled at [0 + start], and every send event at
    [now + tNext]. *)
Fixpoint tx (k : nat) : Time :=
  match k with
  | O => (0 + start)%Q
  | S k' => (tx k' + code_interval packetSize dataRate)%Q
  end.

Fixpoint sent_log (k : nat) : list (Time * Z) :=
  match k with
  | O => []
  | S k' => (tx k', packetSize) :: sent_log k'
  end.

Definition app_at (log : list (Time * Z)) (closed : bool) (id : EventId)
  (running : bool) (sent : Z) : MyApp :=
  {| m_socket := Some {| sk_node := node; sk_bound := true; sk_peer := peer;
                         sk_closed := closed; sk_sent := log |};
     m_peer := peer; m_packetSize := packetSize; m_nPackets := nPackets;
     m_dataRate := dataRate; m_sendEvent := id; m_running := running;
     m_packetsSent := sent |}.

Definition stop_ev : EventImpl :=
  {| ev_ts := (0 + stop)%Q; ev_uid := 1; ev_cb := CbStopApplication;
     ev_cancel := false |}.

(** The event scheduled by the transmission number [j] (from 0). *)
Definition send_ev (j : nat) (cancelled : bool) : EventImpl :=
  {| ev_ts := tx (S j); ev_uid := 2 + j; ev_cb := CbSendPacket;
     ev_cancel := cancelled |}.

(** The handle left by transmission [j]: the last one schedules nothing. *)
Definition last_handle (j : nat) : EventId :=
  match j with
  | O => None
  | S j' => Some (2 + j')%nat
  end.

(** After transmission [j], the next one scheduled. *)
Definition running_state (j : nat) : World :=
  {| w_sched := {| sc_now := tx j; sc_uid := 3 + j;
                   sc_events := insert_event (send_ev j false) [stop_ev] |};
     w_app := app_at (sent_log (S j)) false (Some (2 + j)%nat) true
                (Z.of_nat (S j)) |}.

(** After the last transmission [j]: running, nothing scheduled. *)
Definition idle_state (j : nat) : World :=
  {| w_sched := {| sc_now := tx j; sc_uid := 2 + j;
                   sc_events := [stop_ev] |};
     w_app := app_at (sent_log (S j)) false (last_handle j) true
                (Z.of_nat (S j)) |}.

(** Stopped after the last transmission [j]. *)
Definition stopped_idle_state (j : nat) : World :=
  {| w_sched := {| sc_now := (0 + stop)%Q; sc_uid := 2 + j;
                   sc_events := [] |};
     w_app := app_at (sent_log (S j)) true (last_handle j) false
                (Z.of_nat (S j)) |}.

(** Stopped after transmission [j], the next one cancelled but queued. *)
Definition stopping_state (j : nat) : World :=
  {| w_sched := {| sc_now := (0 + stop)%Q; sc_uid := 3 + j;
                   sc_events := [send_ev j true] |};
     w_app := app_at (sent_log (S j)) true (Some (2 + j)%nat) false
                (Z.of_nat (S j)) |}.

(** Stopped after transmission [j], the next one cancelled and dropped. *)
Definition stopped_early_state (j : nat) : World :=
  {| w_sched := {| sc_now := tx (S j); sc_uid := 3 + j; sc_events := [] |};
     w_app := app_at (sent_log (S j)) true (Some (2 + j)%nat) false
                (Z.of_nat (S j)) |}.

End Chain.

(** ** Readings of the scenario *)

Definition has_error_model (d : NetDevice) : bool :=
  match nd_ReceiveErrorModel d with
  | Some _ => true
  | None => false
  end.

(** The devices attached to channel [c]. *)
Definition devices_on (net : Net) (c : nat) : list NetDevice :=
  filter (fun d => Nat.eqb (nd_channel d) c) (n_devices net).

(** The networks of the addresses given to the devices of channel [c]. *)
Definition networks_on (net : Net) (c : nat) : list Z :=
  map (fun d => match nd_address d with
                | Some (a, _) => network24 a
                | None => -1
                end) (devices_on net c).


(** The generator of [main] under a framework that starts it twice, at the
    same time, before its stop. *)
Definition double_start_world : World :=
  {| w_sched := SetStopTime 20%Q
                  (SetStartTime 0%Q (SetStartTime 0%Q Simulator.empty));
     w_app := Setup (Some (CreateSocket 3)) (Some (ipv4 10 0 0 2, 1090))
                1040 1000 1000000 MyApp_new |}.



(** The generator of [main] with its start and stop times. *)
Definition main_generator_world : World :=
  generator_world 3 (Some (ipv4 10 0 0 2, 1090)) 1040 1000 1000000
    (Seconds (Z_to_double 0)) (Seconds (Z_to_double 20)).

(** The same generator stopped after 20 ms. *)
Definition short_run_world : World :=
  generator_world 3 (Some (ipv4 10 0 0 2, 1090)) 1040 1000 1000000
    0%Q (1 # 50)%Q.

(** Three packets of [2^29] bytes. *)
Definition large_packet_world : World :=
  generator_world 3 (Some (ipv4 10 0 0 2, 1090)) 536870912 3 1000000
    0%Q 20%Q.

(** ** The drop observer and the delivery of notifications *)

(** A packet, by its size in bytes ([Create<Packet> (size)]). *)
Definition Packet : Type := Z.

(** The system together with the capture file bound to the drop observer
    (the file [sixth.pcap]): one record per write, the time and the packet. *)
Record Observed : Type := mkObserved
  { ob_sys : System;
    ob_file : list (Time * Packet) }.

(** [RxDrop (file, p)]. *)
Definition RxDrop (p : Packet) (o : Observed) : Observed :=
  let now := Now (w_sched (sys_world (ob_sys o))) in
  {| ob_sys := {| sys_world := sys_world (ob_sys o);
                  sys_clog := sys_clog (ob_sys o) ++
                    [TStr Text.rxdrop_text; TDouble now; TEndl];
                  sys_stream := sys_stream (ob_sys o) |};
     ob_file := ob_file o ++ [(now, p)] |}.

(** What reaches the program while the simulator runs: a change of the
    congestion window, a packet dropped by the error model, or the next event
    of the scheduler. *)
Inductive Notification : Type :=
| NoteCwnd (oldCwnd newCwnd : Z)
| NoteDrop (p : Packet)
| NoteEvent.

(** Modelled from the spec: the observers are "invoked synchronously" by the
    transport and the link, between the events of the scheduler; the trace
    sources that call them are external collaborators. *)
Definition notify (n : Notification) (o : Observed) : Res Observed :=
  match n with
  | NoteCwnd oldCwnd newCwnd =>
      Ok {| ob_sys := CwndChange oldCwnd newCwnd (ob_sys o);
            ob_file := ob_file o |}
  | NoteDrop p => Ok (RxDrop p o)
  | NoteEvent =>
      match ProcessOneEvent (sys_world (ob_sys o)) with
      | Err f => Err f
      | Ok None => Ok o
      | Ok (Some w) =>
          Ok {| ob_sys := {| sys_world := w;
                             sys_clog := sys_clog (ob_sys o);
                             sys_stream := sys_stream (ob_sys o) |};
                ob_file := ob_file o |}
      end
  end.

Fixpoint deliver (ns : list Notification) (o : Observed) : Res Observed :=
  match ns with
  | [] => Ok o
  | n :: ns' => bind (notify n o) (deliver ns')
  end.

Definition is_cwnd (n : Notification) : bool :=
  match n with NoteCwnd _ _ => true | _ => false end.

Definition is_drop (n : Notification) : bool :=
  match n with NoteDrop _ => true | _ => false end.

Definition is_event (n : Notification) : bool :=
  match n with NoteEvent => true | _ => false end.

(** ** Quiet queues *)

(** Nothing left in the queue can transmit or start: every event is
    cancelled or is a stop. *)
Definition quiet (w : World) : Prop :=
  forall e, In e (sc_events (w_sched w)) ->
            ev_cancel e = true \/ ev_cb e = CbStopApplication.

(** The counter agrees with the socket, and nothing was sent while a start
    is still queued. *)
Definition counted (w : World) : Prop :=
  m_packetsSent (w_app w) = Z.of_nat (packets_on_wire w) /\
  ((exists e, In e (sc_events (w_sched w)) /\ is_start e = true) ->
   packets_on_wire w = 0%nat).

(** * Properties *)

Lemma wrap32_small (z : Z) : 0 <= z < 2 ^ 32 -> wrap32 z = z.
Proof. intro H. unfold wrap32. now apply Z.mod_small. Qed.

(** ** The scheduler's handles *)

Lemma names_cancel_event (id id' : EventId) (e : EventImpl) :
  names id' (cancel_event id e) = names id' e.
Proof.
  unfold cancel_event. destruct (names id e); destruct id'; reflexivity.
Qed.

Lemma cancel_event_uid (id : EventId) (e : EventImpl) :
  ev_uid (cancel_event id e) = ev_uid e.
Proof. unfold cancel_event. destruct (names id e); reflexivity. Qed.

Lemma cancel_event_cb (id : EventId) (e : EventImpl) :
  ev_cb (cancel_event id e) = ev_cb e.
Proof. unfold cancel_event. destruct (names id e); reflexivity. Qed.

Lemma cancel_event_named (id : EventId) (e : EventImpl) :
  names id e = true -> ev_cancel (cancel_event id e) = true.
Proof. unfold cancel_event. intros ->. reflexivity. Qed.

(** A cancelled handle is no longer running. *)
Lemma IsRunning_Cancel (id : EventId) (s : Scheduler) :
  IsRunning id (Cancel id s) = false.
Proof.
  unfold IsRunning, Cancel; simpl.
  induction (sc_events s) as [|e q IH]; simpl; [reflexivity|].
  rewrite IH, orb_false_r, names_cancel_event.
  destruct (names id e) eqn:E; [|reflexivity].
  rewrite (cancel_event_named _ _ E). reflexivity.
Qed.

Lemma IsRunning_true_iff (id : EventId) (s : Scheduler) :
  IsRunning id s = true <->
  exists e, In e (sc_events s) /\ names id e = true /\ ev_cancel e = false.
Proof.
  unfold IsRunning. rewrite existsb_exists. split.
  - intros (e & Hin & H). apply andb_true_iff in H as [H1 H2].
    exists e. repeat split; trivial. now apply negb_true_iff.
  - intros (e & Hin & H1 & H2). exists e. split; trivial.
    rewrite H1, H2. reflexivity.
Qed.

Lemma IsRunning_None (s : Scheduler) : IsRunning None s = false.
Proof.
  unfold IsRunning. induction (sc_events s); simpl; trivial.
Qed.

(** ** Stopping *)

Lemma StopApplication_not_running (w : World) :
  IsRunning (m_sendEvent (w_app w)) (w_sched (StopApplication w)) = false.
Proof.
  unfold StopApplication; simpl.
  destruct (IsRunning (m_sendEvent (w_app w)) (w_sched w)) eqn:E.
  - apply IsRunning_Cancel.
  - exact E.
Qed.

(** C5: [StopApplication] clears the running flag, leaves the send event
    not pending (cancelling it when it was), closes the socket when there is
    one, and never faults; stopping a stopped application changes nothing,
    and stopping an application that was never configured or started leaves
    it as created. *)
Theorem StopApplication_idempotent :
  forall w : World,
    m_running (w_app (StopApplication w)) = false /\
    w_sched (StopApplication w) =
      (if IsRunning (m_sendEvent (w_app w)) (w_sched w)
       then Cancel (m_sendEvent (w_app w)) (w_sched w) else w_sched w) /\
    IsRunning (m_sendEvent (w_app w)) (w_sched (StopApplication w)) = false /\
    m_socket (w_app (StopApplication w)) =
      option_map Socket_Close (m_socket (w_app w)) /\
    StopApplication (StopApplication w) = StopApplication w /\
    StopApplication {| w_sched := w_sched w; w_app := MyApp_new |} =
      {| w_sched := w_sched w; w_app := MyApp_new |}.
Proof.
  intro w. split; [reflexivity|]. split; [reflexivity|].
  split; [apply StopApplication_not_running|].
  split; [destruct w as [s a]; simpl; destruct (m_socket a); reflexivity|].
  split.
  - pose proof (StopApplication_not_running w) as H.
    unfold StopApplication at 1. cbn [w_app].
    replace (m_sendEvent (w_app (StopApplication w)))
      with (m_sendEvent (w_app w)) by reflexivity.
    rewrite H.
    unfold StopApplication. cbn [w_app w_sched m_socket m_peer m_packetSize
      m_nPackets m_dataRate m_sendEvent m_running m_packetsSent].
    destruct (m_socket (w_app w)); reflexivity.
  - unfold StopApplication. cbn [w_app w_sched m_sendEvent MyApp_new].
    rewrite IsRunning_None. reflexivity.
Qed.

(** ** The degenerate interval *)

Lemma double_div_None (x y : Z) : double_div x y = None <-> y = 0.
Proof.
  unfold double_div. destruct (Z.eqb_spec y 0); split; intro H;
    try discriminate; congruence.
Qed.

Lemma ScheduleTx_Err (w : World) (f : Fault) :
  ScheduleTx w = Err f <->
  f = DegenerateInterval /\ m_running (w_app w) = true /\
  m_dataRate (w_app w) = 0.
Proof.
  unfold ScheduleTx.
  destruct (m_running (w_app w)).
  - destruct (double_div _ _) eqn:E.
    + assert (m_dataRate (w_app w) <> 0)
        by (intro H; apply (double_div_None (wrap32 (m_packetSize (w_app w) * 8)))
              in H; congruence).
      destruct (Schedule _ _ _). split; [discriminate|tauto].
    + apply double_div_None in E. split.
      * intros [= <-]. auto.
      * intros (-> & _). reflexivity.
  - split; [discriminate|]. intros (_ & H & _). discriminate.
Qed.

(** C7: [ScheduleTx] faults exactly when the application is running and the
    data rate is zero, and the fault is the degenerate interval of the
    division by zero; it is reached from [StartApplication] for every
    configuration of rate zero that has more than one packet to send. With a
    positive rate the branch is unreachable. *)
Theorem ScheduleTx_unguarded_zero_rate :
  forall (s : Scheduler) (k : Socket) (peer : Address)
         (packetSize nPackets : Z) (a : MyApp),
    1 < nPackets < 2 ^ 32 ->
    (forall (w : World) (f : Fault),
        ScheduleTx w = Err f <->
        f = DegenerateInterval /\ m_running (w_app w) = true /\
        m_dataRate (w_app w) = 0) /\
    (forall w : World,
        0 < m_dataRate (w_app w) -> forall f, ScheduleTx w <> Err f) /\
    StartApplication
      {| w_sched := s;
         w_app := Setup (Some k) peer packetSize nPackets 0 a |} =
      Err DegenerateInterval.
Proof.
  intros s k peer packetSize nPackets a Hn.
  split; [exact ScheduleTx_Err|]. split.
  - intros w Hr f H. apply ScheduleTx_Err in H. lia.
  - unfold StartApplication, SendPacket; cbn.
    rewrite ?wrap32_small by lia.
    destruct (Z.ltb_spec 1 nPackets); [|lia].
    reflexivity.
Qed.

(** ** A packet count of zero *)

(** C10: with [m_nPackets = 0] and a socket, [StartApplication] hands exactly
    one packet to the socket, at the current time; the counter is 1, above
    the packet count, and the scheduler is untouched: no event is scheduled. *)
Theorem StartApplication_zero_packets :
  forall (w : World) (k : Socket),
    m_nPackets (w_app w) = 0 ->
    m_socket (w_app w) = Some k ->
    exists w',
      StartApplication w = Ok w' /\
      socket_log w' =
        socket_log w ++ [(Now (w_sched w), m_packetSize (w_app w))] /\
      m_packetsSent (w_app w') = 1 /\
      m_nPackets (w_app w') < m_packetsSent (w_app w') /\
      w_sched w' = w_sched w /\
      m_sendEvent (w_app w') = m_sendEvent (w_app w) /\
      ~ app_invariant w'.
Proof.
  intros [s a] k Hn Hk. simpl in *.
  unfold StartApplication, SendPacket; cbn. rewrite Hk; cbn.
  rewrite Hn. rewrite ?wrap32_small by lia. cbn.
  eexists. split; [reflexivity|].
  unfold socket_log; cbn. rewrite Hk.
  repeat split; try reflexivity.
  unfold app_invariant; cbn. intros [H _]. lia.
Qed.

(** ** The congestion-window observer *)



(** ** The topology of [main] *)

(** X11: [main] creates four nodes and three point-to-point channels that join
    node 0 to 1, 1 to 2 and 2 to 3, each with two devices of 5 Mbps and a
    delay of 2 ms; the addresses of the three channels lie in the distinct
    blocks 10.0.0.0/24, 10.0.1.0/24 and 10.0.2.0/24; exactly one device has a
    receive error model, the second device of the first channel (on node 1),
    and it is a rate error model with the fixed rate 0.00001. *)
Theorem main_builds_lossy_chain :
  n_nodes (s_net main) = 4%nat /\
  map (fun c => (ch_a c, ch_b c)) (n_channels (s_net main)) =
    [(0, 1); (1, 2); (2, 3)]%nat /\
  map (fun c => ch_Delay c) (n_channels (s_net main)) =
    [2 # 1000; 2 # 1000; 2 # 1000]%Q /\
  map (fun d => (nd_node d, nd_channel d)) (n_devices (s_net main)) =
    [(0, 0); (1, 0); (1, 1); (2, 1); (2, 2); (3, 2)]%nat /\
  map nd_DataRate (n_devices (s_net main)) =
    [5000000; 5000000; 5000000; 5000000; 5000000; 5000000] /\
  map (networks_on (s_net main)) [0; 1; 2]%nat =
    [[ipv4 10 0 0 0; ipv4 10 0 0 0]; [ipv4 10 0 1 0; ipv4 10 0 1 0];
     [ipv4 10 0 2 0; ipv4 10 0 2 0]] /\
  NoDup [ipv4 10 0 0 0; ipv4 10 0 1 0; ipv4 10 0 2 0] /\
  filter has_error_model (n_devices (s_net main)) =
    [{| nd_node := 1; nd_channel := 0; nd_DataRate := 5000000;
        nd_ReceiveErrorModel := Some {| ErrorRate := 1 # 100000 |};
        nd_address := Some (ipv4 10 0 0 2, ipv4 10 0 0 0) |}] /\
  nth_error (n_devices (s_net main)) (s_lossy main) =
    nth_error (devices_on (s_net main) 0) 1 /\
  lossy_channel main = Some 0%nat.
Proof.
  repeat split; try reflexivity.
  repeat constructor; simpl; intuition discriminate.
Qed.

(** C3, evaluated on [main]: there is one sink and one generator, but both
    are on node 3; the peer configured into the generator is 10.0.0.2:1090,
    an address of node 1, where no sink listens; the route from the
    generator's node to that address crosses the channels 2 and 1 and not
    channel 0, the one with the error model. *)
Theorem main_flow_misses_sink :
  map snk_node (s_sinks main) = [3%nat] /\
  map gen_node (s_generators main) = [3%nat] /\
  map (fun g => m_peer (gen_app g)) (s_generators main) =
    [Some (ipv4 10 0 0 2, 1090)] /\
  map (fun g => option_map sk_node (m_socket (gen_app g)))
    (s_generators main) = [Some 3%nat] /\
  node_of_address (s_net main) (ipv4 10 0 0 2) = Some 1%nat /\
  map (fun k => listens_at (s_net main) k (Some (ipv4 10 0 0 2, 1090)))
    (s_sinks main) = [false] /\
  map (fun k => listens_at (s_net main) k (Some (ipv4 10 0 2 2, 1090)))
    (s_sinks main) = [true] /\
  route 3 1 = [2; 1]%nat /\
  lossy_channel main = Some 0%nat /\
  ~ In 0%nat (route 3 1).
Proof.
  repeat split; try reflexivity.
  simpl. intuition discriminate.
Qed.

(** ** The queue of the scheduler *)

Lemma In_insert_event (e x : EventImpl) (q : list EventImpl) :
  In x (insert_event e q) <-> x = e \/ In x q.
Proof.
  induction q as [|y q IH]; simpl.
  - intuition.
  - destruct (Qle_bool (ev_ts y) (ev_ts e)); simpl; rewrite ?IH; intuition.
Qed.

Lemma NoDup_insert_event (e : EventImpl) (q : list EventImpl) :
  ~ In (ev_uid e) (map ev_uid q) -> NoDup (map ev_uid q) ->
  NoDup (map ev_uid (insert_event e q)).
Proof.
  induction q as [|y q IH]; simpl; intros Hn Hd.
  - constructor; [auto|constructor].
  - destruct (Qle_bool (ev_ts y) (ev_ts e)); simpl.
    + inversion Hd as [|? ? Hy Hq]; subst. constructor.
      * rewrite in_map_iff. intros (x & Hx & Hin).
        apply In_insert_event in Hin as [->|Hin]; [intuition|].
        apply Hy. rewrite <- Hx. now apply in_map.
      * apply IH; intuition.
    + constructor; [exact Hn|exact Hd].
Qed.

Lemma filter_insert_event_length (f : EventImpl -> bool) (e : EventImpl)
  (q : list EventImpl) :
  List.length (filter f (insert_event e q)) = List.length (filter f (e :: q)).
Proof.
  induction q as [|y q IH]; simpl; [reflexivity|].
  destruct (Qle_bool (ev_ts y) (ev_ts e)); simpl; [|reflexivity].
  simpl in IH. destruct (f y), (f e); simpl in *; lia.
Qed.

Lemma filter_length_tail {A : Type} (f : A -> bool) (x : A) (l : list A) :
  (List.length (filter f l) <= List.length (filter f (x :: l)))%nat.
Proof. simpl. destruct (f x); simpl; lia. Qed.

Lemma filter_none_nil {A : Type} (f : A -> bool) (l : list A) :
  (forall x, In x l -> f x = false) -> filter f l = [].
Proof.
  induction l as [|x l IH]; simpl; intro H; [reflexivity|].
  rewrite (H x) by auto. apply IH. auto.
Qed.

Lemma filter_length_zero {A : Type} (f : A -> bool) (l : list A) :
  List.length (filter f l) = 0%nat -> forall x, In x l -> f x = false.
Proof.
  induction l as [|y l IH]; simpl; intros H x Hin; [contradiction|].
  destruct (f y) eqn:E; [discriminate|].
  destruct Hin as [<-|Hin]; auto.
Qed.

Lemma NoDup_map_filter {A B : Type} (g : A -> B) (f : A -> bool) (l : list A) :
  NoDup (map g l) -> NoDup (map g (filter f l)).
Proof.
  induction l as [|x l IH]; simpl; intro H; [constructor|].
  inversion H as [|? ? Hx Hl]; subst.
  destruct (f x); simpl; [|auto].
  constructor; [|auto].
  rewrite in_map_iff. intros (y & Hy & Hin).
  apply filter_In in Hin as [Hin _].
  apply Hx. rewrite <- Hy. now apply in_map.
Qed.

Lemma same_key_at_most_one {A B : Type} (g : A -> B) (b : B) (l : list A) :
  NoDup (map g l) -> (forall x, In x l -> g x = b) ->
  (List.length l <= 1)%nat.
Proof.
  destruct l as [|x [|y l]]; simpl; intros Hd H; try lia.
  inversion Hd as [|? ? Hx _]; subst. exfalso. apply Hx.
  left. rewrite (H x), (H y); auto.
Qed.

Lemma names_Some (u : nat) (e : EventImpl) :
  names (Some u) e = true <-> ev_uid e = u.
Proof. simpl. rewrite Nat.eqb_eq. split; congruence. Qed.

(** ** The life cycle keeps the invariant *)

Lemma life_configured (s : Scheduler) (socket : option Socket)
  (peer : Address) (packetSize nPackets dataRate : Z) :
  agenda 1 s -> 0 < nPackets < 2 ^ 32 ->
  life_of {| w_sched := s;
             w_app := Setup socket peer packetSize nPackets dataRate
                        MyApp_new |}.
Proof.
  intros [Hcb Hst Hu Hd] Hn.
  assert (Hlive : forall e, In e (sc_events s) -> live_send e = false).
  { intros e He. specialize (Hcb e He). unfold live_send.
    destruct (ev_cb e); congruence. }
  constructor; cbn [w_sched w_app Setup MyApp_new m_sendEvent m_nPackets
                     m_packetsSent m_running names].
  - exact Hu.
  - exact Hd.
  - intros e _ H; discriminate.
  - intros e He H. rewrite Hlive in H by auto. discriminate.
  - exact Hst.
  - intros e e' _ _ He'. now apply Hlive.
  - exact Hn.
  - lia.
  - intros e He H. rewrite Hlive in H by auto. discriminate.
Qed.

Lemma life_tail (u : nat) (e : EventImpl) (q : list EventImpl) (a : MyApp) :
  life u (e :: q) a -> life u q a.
Proof.
  intros [Hu Hd Hh Hl Hs Hun Hn Hsent Hp].
  constructor; auto.
  - intros; apply Hu; now right.
  - now inversion Hd.
  - intros; apply Hh; auto; now right.
  - intros; apply Hl; auto; now right.
  - pose proof (filter_length_tail is_start e q). lia.
  - intros x y Hx Hsx Hy. apply (Hun x y); auto; now right.
  - intros; apply Hp with e0; auto; now right.
Qed.

(** No send event is live in the rest of the queue when the popped event is
    the start, or is the live send event itself. *)
Lemma life_rest_quiet (u : nat) (e : EventImpl) (q : list EventImpl)
  (a : MyApp) :
  life u (e :: q) a -> is_start e = true \/ live_send e = true ->
  forall x, In x q -> live_send x = false.
Proof.
  intros L [He|He] x Hx.
  - apply (li_unstarted _ _ _ L e x); simpl; auto.
  - destruct (live_send x) eqn:E; [|reflexivity]. exfalso.
    pose proof (li_live _ _ _ L e (or_introl eq_refl) He) as H1.
    pose proof (li_live _ _ _ L x (or_intror Hx) E) as H2.
    destruct (m_sendEvent a) as [h|]; [|discriminate].
    apply names_Some in H1, H2.
    pose proof (li_nodup _ _ _ L) as Hd. simpl in Hd.
    apply NoDup_cons_iff in Hd as [Hn _]. apply Hn.
    rewrite H1, <- H2. now apply in_map.
Qed.

Lemma life_no_start_left (u : nat) (e : EventImpl) (q : list EventImpl)
  (a : MyApp) :
  life u (e :: q) a -> is_start e = true ->
  forall x, In x q -> is_start x = false.
Proof.
  intros L He. apply filter_length_zero.
  pose proof (li_starts _ _ _ L) as H. simpl in H. rewrite He in H.
  simpl in H. lia.
Qed.

(** A send event scheduled on a queue without live send events or starts. *)
Lemma life_scheduled (u : nat) (q : list EventImpl) (a a' : MyApp) (ts : Time) :
  life u q a ->
  (forall x, In x q -> live_send x = false) ->
  (forall x, In x q -> is_start x = false) ->
  m_sendEvent a' = Some u -> m_nPackets a' = m_nPackets a ->
  m_running a' = true -> 0 <= m_packetsSent a' < m_nPackets a' ->
  life (S u)
    (insert_event {| ev_ts := ts; ev_uid := u; ev_cb := CbSendPacket;
                     ev_cancel := false |} q) a'.
Proof.
  intros L Hq Hs Hid Hn Hr Hsent.
  pose proof (li_uid _ _ _ L) as Hu.
  constructor.
  - intros e He. apply In_insert_event in He as [->|He]; simpl; [lia|].
    specialize (Hu e He). lia.
  - apply NoDup_insert_event; [|exact (li_nodup _ _ _ L)].
    simpl. rewrite in_map_iff. intros (x & Hx & Hin).
    specialize (Hu x Hin). lia.
  - intros e He Hnm. apply In_insert_event in He as [->|He]; [reflexivity|].
    rewrite Hid in Hnm. apply names_Some in Hnm.
    specialize (Hu e He). lia.
  - intros e He Hl. apply In_insert_event in He as [->|He].
    + rewrite Hid. simpl. apply Nat.eqb_refl.
    + rewrite Hq in Hl by exact He. discriminate.
  - rewrite filter_insert_event_length. simpl.
    rewrite (filter_none_nil is_start q Hs). simpl. lia.
  - intros e e' He Hst. apply In_insert_event in He as [->|He].
    + discriminate.
    + rewrite Hs in Hst by exact He. discriminate.
  - rewrite Hn. exact (li_n _ _ _ L).
  - lia.
  - intros e _ _. split; [exact Hr|lia].
Qed.

(** The application changes while no send event is live. *)
Lemma life_quiet (u : nat) (q : list EventImpl) (a a' : MyApp) :
  life u q a ->
  (forall x, In x q -> live_send x = false) ->
  m_sendEvent a' = m_sendEvent a -> m_nPackets a' = m_nPackets a ->
  0 <= m_packetsSent a' <= m_nPackets a' ->
  life u q a'.
Proof.
  intros L Hq Hid Hn Hsent. constructor.
  - exact (li_uid _ _ _ L).
  - exact (li_nodup _ _ _ L).
  - rewrite Hid. exact (li_handle _ _ _ L).
  - intros e He Hl. rewrite Hq in Hl by exact He. discriminate.
  - exact (li_starts _ _ _ L).
  - intros e e' _ _ He'. now apply Hq.
  - rewrite Hn. exact (li_n _ _ _ L).
  - exact Hsent.
  - intros e He Hl. rewrite Hq in Hl by exact He. discriminate.
Qed.

Lemma is_start_cancel_event (id : EventId) (e : EventImpl) :
  is_start (cancel_event id e) = is_start e.
Proof. unfold is_start. now rewrite cancel_event_cb. Qed.

Lemma live_send_cancel_event (id : EventId) (e : EventImpl) :
  live_send (cancel_event id e) = true ->
  live_send e = true /\ names id e = false.
Proof.
  unfold cancel_event. destruct (names id e) eqn:E.
  - unfold live_send; simpl. destruct (ev_cb e); discriminate.
  - auto.
Qed.

(** The queue after [StopApplication] holds no live send event. *)
Lemma life_stopped (w : World) :
  life_of w -> life_of (StopApplication w) /\
               pending_sends (StopApplication w) = [].
Proof.
  intro L. unfold life_of in *.
  set (id := m_sendEvent (w_app w)).
  set (q := sc_events (w_sched w)) in *.
  assert (Hq' : sc_events (w_sched (StopApplication w)) = q \/
                (IsRunning id (w_sched w) = true /\
                 sc_events (w_sched (StopApplication w)) =
                   map (cancel_event id) q)).
  { unfold StopApplication; simpl. fold id.
    destruct (IsRunning id (w_sched w)) eqn:E; simpl; auto. }
  assert (Hu : sc_uid (w_sched (StopApplication w)) = sc_uid (w_sched w)).
  { unfold StopApplication; simpl.
    destruct (IsRunning _ _); reflexivity. }
  assert (Hquiet : forall x, In x (sc_events (w_sched (StopApplication w))) ->
                             live_send x = false).
  { intros x Hx. destruct (live_send x) eqn:Hl; [exfalso|reflexivity].
    pose proof (StopApplication_not_running w) as Hnr. fold id in Hnr.
    assert (Hnm : names id x = true).
    { destruct Hq' as [Hq'|[_ Hq']]; rewrite Hq' in Hx.
      - apply (li_live _ _ _ L); assumption.
      - apply in_map_iff in Hx as (y & <- & Hy).
        apply live_send_cancel_event in Hl as [Hl Hnm].
        pose proof (li_live _ _ _ L y Hy Hl) as Hc.
        unfold id in Hnm. congruence. }
    assert (IsRunning id (w_sched (StopApplication w)) = true).
    { apply IsRunning_true_iff. exists x. repeat split; trivial.
      unfold live_send in Hl. destruct (ev_cb x); try discriminate.
      now apply negb_true_iff. }
    congruence. }
  split; [|apply filter_none_nil; exact Hquiet].
  rewrite Hu.
  assert (L' : life (sc_uid (w_sched w))
                 (sc_events (w_sched (StopApplication w))) (w_app w)).
  { destruct Hq' as [->|[_ ->]]; [exact L|].
    destruct L as [Lu Ld Lh Ll Ls Lun Ln Lsent Lp]. constructor; auto.
    - intros e He. apply in_map_iff in He as (y & <- & Hy).
      rewrite cancel_event_uid. auto.
    - rewrite map_map.
      rewrite (map_ext _ ev_uid (cancel_event_uid id)). exact Ld.
    - intros e He. apply in_map_iff in He as (y & <- & Hy).
      rewrite names_cancel_event, cancel_event_cb. auto.
    - intros e He Hl. apply in_map_iff in He as (y & <- & Hy).
      apply live_send_cancel_event in Hl as [Hl _].
      rewrite names_cancel_event. auto.
    - assert (E : forall l, filter is_start (map (cancel_event id) l) =
                            map (cancel_event id) (filter is_start l)).
      { induction l as [|y l IH]; simpl; [reflexivity|].
        rewrite is_start_cancel_event. destruct (is_start y); simpl;
          now rewrite IH. }
      rewrite E, length_map. exact Ls.
    - intros e e' He Hst He'.
      apply in_map_iff in He as (y & <- & Hy).
      apply in_map_iff in He' as (y' & <- & Hy').
      rewrite is_start_cancel_event in Hst.
      destruct (live_send (cancel_event id y')) eqn:E; [|reflexivity].
      apply live_send_cancel_event in E as [E _].
      rewrite (Lun y y' Hy Hst Hy') in E. discriminate.
    - intros e He Hl. apply in_map_iff in He as (y & <- & Hy).
      apply live_send_cancel_event in Hl as [Hl _]. eauto. }
  apply (life_quiet _ _ _ _ L' Hquiet); try reflexivity.
  exact (li_sent _ _ _ L).
Qed.

(** [SendPacket] on a queue without live send events or starts. *)
Lemma life_SendPacket (s : Scheduler) (a : MyApp) (w' : World) :
  life (sc_uid s) (sc_events s) a ->
  (forall x, In x (sc_events s) -> live_send x = false) ->
  (forall x, In x (sc_events s) -> is_start x = false) ->
  m_running a = true -> 0 <= m_packetsSent a < m_nPackets a ->
  SendPacket {| w_sched := s; w_app := a |} = Ok w' ->
  life_of w'.
Proof.
  intros L Hq Hs Hr Hsent H.
  pose proof (li_n _ _ _ L) as Hn.
  unfold SendPacket in H. cbn [w_app w_sched] in H.
  destruct (m_socket a) as [k|]; [|discriminate].
  rewrite wrap32_small in H by lia.
  destruct (Z.ltb_spec (m_packetsSent a + 1) (m_nPackets a)) as [Hlt|Hge].
  - unfold ScheduleTx in H.
    cbn [w_app w_sched m_running m_packetSize m_dataRate m_socket m_peer
         m_nPackets m_sendEvent m_packetsSent] in H.
    rewrite Hr in H.
    destruct (double_div _ _) as [x|]; [|discriminate].
    unfold Schedule in H. injection H as <-. unfold life_of.
    cbn [w_app w_sched sc_uid sc_events].
    eapply life_scheduled; eauto; cbn; lia.
  - injection H as <-. unfold life_of. cbn [w_app w_sched].
    eapply life_quiet; eauto; cbn; lia.
Qed.

(** Every event popped by the scheduler keeps [life]. *)
Lemma life_step (w w' : World) :
  life_of w -> ProcessOneEvent w = Ok (Some w') -> life_of w'.
Proof.
  intros L H. unfold life_of in L. unfold ProcessOneEvent in H.
  destruct (sc_events (w_sched w)) as [|e q] eqn:Eq; [discriminate|].
  pose proof (life_tail _ _ _ _ L) as Lq.
  destruct (ev_cancel e) eqn:Ec.
  - injection H as <-. exact Lq.
  - destruct (ev_cb e) eqn:Ecb; cbn [Invoke bind] in H.
    + (* the start *)
      assert (He : is_start e = true) by (unfold is_start; now rewrite Ecb).
      pose proof (life_rest_quiet _ _ _ _ L (or_introl He)) as Hq.
      pose proof (life_no_start_left _ _ _ _ L He) as Hs.
      unfold StartApplication in H. cbn [w_app w_sched] in H.
      destruct (m_socket (w_app w)) as [k|]; [|discriminate].
      destruct (SendPacket _) as [w2|] eqn:E2; [|discriminate].
      injection H as <-.
      pose proof (li_n _ _ _ L) as Hn.
      eapply life_SendPacket; [| | | | |exact E2]; cbn; auto; try lia.
      eapply life_quiet; [exact Lq|exact Hq| | |]; cbn; auto; lia.
    + (* a stop *)
      injection H as <-.
      apply (life_stopped {| w_sched := {| sc_now := ev_ts e;
                                           sc_uid := sc_uid (w_sched w);
                                           sc_events := q |};
                             w_app := w_app w |}).
      exact Lq.
    + (* a send *)
      assert (He : live_send e = true)
        by (unfold live_send; now rewrite Ecb, Ec).
      pose proof (life_rest_quiet _ _ _ _ L (or_intror He)) as Hq.
      assert (Hs : forall x, In x q -> is_start x = false).
      { intros x Hx. destruct (is_start x) eqn:E; [|reflexivity].
        rewrite (li_unstarted _ _ _ L x e) in He; simpl; auto. }
      destruct (li_pending _ _ _ L e (or_introl eq_refl) He) as [Hr Hlt].
      pose proof (li_sent _ _ _ L) as Hsent.
      destruct (SendPacket _) as [w2|] eqn:E2; [|discriminate].
      injection H as <-.
      eapply life_SendPacket; [| | | | |exact E2]; cbn; auto; lia.
Qed.

Lemma lifecycle_life (w : World) : lifecycle w -> life_of w.
Proof.
  induction 1 as [s socket peer ps n r Ha Hn|w w' _ IH Hstep].
  - now apply life_configured.
  - exact (life_step _ _ IH Hstep).
Qed.


Lemma life_one_pending (w : World) :
  life_of w -> (List.length (pending_sends w) <= 1)%nat.
Proof.
  intro L. unfold pending_sends.
  destruct (m_sendEvent (w_app w)) as [h|] eqn:Eh.
  - apply (same_key_at_most_one ev_uid h).
    + apply NoDup_map_filter. exact (li_nodup _ _ _ L).
    + intros x Hx. apply filter_In in Hx as [Hx Hl].
      apply names_Some. rewrite <- Eh. exact (li_live _ _ _ L x Hx Hl).
  - rewrite filter_none_nil; [simpl; lia|].
    intros x Hx. destruct (live_send x) eqn:E; [|reflexivity].
    pose proof (li_live _ _ _ L x Hx E) as H. rewrite Eh in H. discriminate.
Qed.

(** ** The run of one generator *)

Lemma agenda_generator (start stop : Time) :
  agenda 1 (SetStopTime stop (SetStartTime start Simulator.empty)).
Proof.
  unfold SetStopTime, SetStartTime, Schedule; cbn.
  constructor; cbn.
  - intros e He. destruct (Qle_bool _ _); simpl in He;
      intuition (subst; discriminate).
  - destruct (Qle_bool _ _); simpl; lia.
  - intros e He. destruct (Qle_bool _ _); simpl in He;
      intuition (subst; simpl; lia).
  - destruct (Qle_bool _ _); simpl; repeat constructor; simpl;
      intuition discriminate.
Qed.

Lemma lifecycle_generator (node : nat) (peer : Address)
  (packetSize nPackets dataRate : Z) (start stop : Time) :
  0 < nPackets < 2 ^ 32 ->
  lifecycle (generator_world node peer packetSize nPackets dataRate start stop).
Proof.
  intro Hn. unfold generator_world.
  apply lc_configured; [apply agenda_generator|exact Hn].
Qed.

Lemma Qle_bool_false (x y : Q) : (y < x)%Q -> Qle_bool x y = false.
Proof.
  intro H. destruct (Qle_bool x y) eqn:E; [|reflexivity].
  apply Qle_bool_iff in E. exfalso. exact (Qlt_not_le _ _ H E).
Qed.

Lemma Qle_bool_true (x y : Q) : (x <= y)%Q -> Qle_bool x y = true.
Proof. intro H. now apply Qle_bool_iff. Qed.

Section Run.

Variables (node : nat) (peer : Address) (packetSize nPackets dataRate : Z).
Variables (start stop : Time).

Hypothesis Hn : 0 < nPackets < 2 ^ 32.
Hypothesis Hr : 0 < dataRate.
Hypothesis Hss : (start < stop)%Q.

Local Abbreviation i := (code_interval packetSize dataRate).
Local Abbreviation tk := (tx packetSize dataRate start).
Local Abbreviation slog := (sent_log packetSize dataRate start).
Local Abbreviation W0 :=
  (generator_world node peer packetSize nPackets dataRate start stop).
Local Abbreviation Wrun :=
  (running_state node peer packetSize nPackets dataRate start stop).
Local Abbreviation Widle :=
  (idle_state node peer packetSize nPackets dataRate start stop).
Local Abbreviation Wstopping :=
  (stopping_state node peer packetSize nPackets dataRate start stop).
Local Abbreviation Wstopped_idle :=
  (stopped_idle_state node peer packetSize nPackets dataRate start stop).
Local Abbreviation Wstopped_early :=
  (stopped_early_state node peer packetSize nPackets dataRate start).
Local Abbreviation T := (0 + stop)%Q.

Lemma tx_progression (k : nat) : (tk k == progression start i k)%Q.
Proof.
  unfold progression. induction k as [|k IH].
  - simpl. ring.
  - cbn [tx]. rewrite IH, Nat2Z.inj_succ. unfold Z.succ.
    rewrite inject_Z_plus. ring.
Qed.

Lemma double_div_rate (x : Z) :
  double_div x dataRate = Some (double_quot x dataRate).
Proof.
  unfold double_div. destruct (Z.eqb_spec dataRate 0); [lia|reflexivity].
Qed.

Lemma start_before_stop : Qle_bool (0 + start) T = true.
Proof. apply Qle_bool_true. lra. Qed.

(** The start event: bind, connect, and the first transmission. *)
Lemma step_start :
  ProcessOneEvent W0 =
  Ok (Some (if 1 <? nPackets then Wrun 0%nat else Widle 0%nat)).
Proof.
  unfold ProcessOneEvent, generator_world, SetStopTime, SetStartTime,
    Schedule.
  cbn [w_sched w_app sc_events sc_now sc_uid snd insert_event ev_ts
       Simulator.empty].
  rewrite start_before_stop.
  cbn [ev_cancel ev_cb Invoke bind ev_ts].
  unfold StartApplication, SendPacket, Setup, MyApp_new.
  cbn [w_sched w_app m_socket m_peer m_packetSize m_nPackets m_dataRate
       m_sendEvent m_running m_packetsSent].
  rewrite ?wrap32_small by lia. change (0 + 1) with 1.
  destruct (1 <? nPackets).
  - unfold ScheduleTx.
    cbn [w_sched w_app m_socket m_peer m_packetSize m_nPackets m_dataRate
         m_sendEvent m_running m_packetsSent].
    rewrite double_div_rate. reflexivity.
  - reflexivity.
Qed.

Lemma wrap32_succ (j : nat) :
  Z.of_nat (S j) < nPackets ->
  wrap32 (Z.of_nat (S j) + 1) = Z.of_nat (S (S j)).
Proof.
  intro H. rewrite wrap32_small by lia. lia.
Qed.

(** A send event that fires before the stop. *)
Lemma step_send (j : nat) :
  (tk (S j) < T)%Q -> Z.of_nat (S j) < nPackets ->
  ProcessOneEvent (Wrun j) =
  Ok (Some (if Z.of_nat (S (S j)) <? nPackets
            then Wrun (S j) else Widle (S j))).
Proof.
  intros Ht Hj.
  match goal with |- _ = ?R => set (rhs := R) end.
  unfold ProcessOneEvent, running_state.
  cbn [w_sched w_app sc_events sc_now sc_uid insert_event ev_ts stop_ev
       send_ev].
  rewrite (Qle_bool_false _ _ Ht).
  cbn [ev_cancel ev_cb Invoke bind ev_ts send_ev].
  unfold SendPacket, app_at.
  cbn [w_sched w_app m_socket m_peer m_packetSize m_nPackets m_dataRate
       m_sendEvent m_running m_packetsSent].
  rewrite (wrap32_succ j Hj). subst rhs.
  destruct (Z.of_nat (S (S j)) <? nPackets).
  - unfold ScheduleTx.
    cbn [w_sched w_app m_socket m_peer m_packetSize m_nPackets m_dataRate
         m_sendEvent m_running m_packetsSent].
    rewrite double_div_rate. reflexivity.
  - reflexivity.
Qed.

(** The stop fires first when the next send is not before it: the send
    event is cancelled, and dropped when its time comes. *)
Lemma step_stop_early (j : nat) :
  (T <= tk (S j))%Q ->
  ProcessOneEvent (Wrun j) = Ok (Some (Wstopping j)) /\
  ProcessOneEvent (Wstopping j) = Ok (Some (Wstopped_early j)) /\
  ProcessOneEvent (Wstopped_early j) = Ok None.
Proof.
  intro Ht. split; [|split; reflexivity].
  match goal with |- _ = ?R => set (rhs := R) end.
  unfold ProcessOneEvent, running_state.
  cbn [w_sched w_app sc_events sc_now sc_uid insert_event ev_ts stop_ev
       send_ev].
  rewrite (Qle_bool_true _ _ Ht).
  cbn [ev_cancel ev_cb Invoke bind ev_ts stop_ev].
  unfold StopApplication, IsRunning, Cancel, app_at.
  cbn [w_sched w_app m_socket m_peer m_packetSize m_nPackets m_dataRate
       m_sendEvent m_running m_packetsSent sc_events existsb names ev_uid
       ev_cancel negb sc_now sc_uid map send_ev].
  unfold cancel_event. cbn [names ev_uid].
  rewrite !Nat.eqb_refl. subst rhs. reflexivity.
Qed.

(** The stop of an idle application. *)
Lemma step_stop_idle (j : nat) :
  ProcessOneEvent (Widle j) = Ok (Some (Wstopped_idle j)) /\
  ProcessOneEvent (Wstopped_idle j) = Ok None.
Proof.
  split; [|reflexivity].
  unfold ProcessOneEvent, idle_state.
  cbn [w_sched w_app sc_events sc_now sc_uid ev_ts stop_ev ev_cancel ev_cb
       Invoke bind].
  unfold StopApplication.
  cbn [w_sched w_app m_sendEvent app_at sc_events IsRunning existsb].
  reflexivity.
Qed.

(** The first transmission that is the last: the budget is exhausted or
    the next one would not be before the stop. *)
Lemma last_transmission :
  exists j : nat,
    Z.of_nat (S j) <= nPackets /\
    (forall k, (k <= j)%nat -> (tk k < T)%Q) /\
    (Z.of_nat (S j) < nPackets -> (T <= tk (S j))%Q).
Proof.
  assert (H : forall m : nat,
             exists j, (j <= m)%nat /\
                       (forall k, (k <= j)%nat -> (tk k < T)%Q) /\
                       ((j < m)%nat -> (T <= tk (S j))%Q)).
  { induction m as [|m (j & Hjm & Hlt & Hge)].
    - exists 0%nat. split; [lia|]. split; [|lia].
      intros k Hk. replace k with 0%nat by lia. simpl. lra.
    - destruct (Nat.eq_dec j m) as [->|Hne].
      + destruct (Qlt_le_dec (tk (S m)) T) as [Hm|Hm].
        * exists (S m). split; [lia|]. split; [|lia].
          intros k Hk. destruct (Nat.eq_dec k (S m)) as [->|]; [exact Hm|].
          apply Hlt. lia.
        * exists m. split; [lia|]. split; [exact Hlt|]. intros _. exact Hm.
      + exists j. split; [lia|]. split; [exact Hlt|].
        intros _. apply Hge. lia. }
  destruct (H (Z.to_nat nPackets - 1)%nat) as (j & Hjm & Hlt & Hge).
  exists j. split; [lia|]. split; [exact Hlt|].
  intro Hj. apply Hge. lia.
Qed.

Lemma Steps_snoc (k : nat) (w w1 w2 : World) :
  Steps k w = Ok w1 -> ProcessOneEvent w1 = Ok (Some w2) ->
  Steps (S k) w = Ok w2.
Proof.
  revert w. induction k as [|k IH]; intros w H1 H2.
  - simpl in H1. injection H1 as ->. simpl. rewrite H2. reflexivity.
  - cbn [Steps] in H1. cbn [Steps].
    destruct (ProcessOneEvent w) as [[w'|]|f] eqn:E; try discriminate.
    + apply (IH w' H1 H2).
    + injection H1 as ->. congruence.
Qed.

Lemma Run_after_Steps (k fuel : nat) (w w1 : World) (r : Res World) :
  Steps k w = Ok w1 -> Run fuel w1 = Some r -> Run (k + fuel) w = Some r.
Proof.
  revert w. induction k as [|k IH]; intros w H1 H2.
  - simpl in H1. injection H1 as ->. exact H2.
  - cbn [Steps] in H1. cbn [Nat.add Run].
    destruct (ProcessOneEvent w) as [[w'|]|f] eqn:E; try discriminate.
    + apply (IH w' H1 H2).
    + injection H1 as ->. destruct fuel; simpl in H2; rewrite E in H2;
        exact H2.
Qed.

Lemma Run_more (fuel : nat) (w : World) (r : Res World) :
  Run fuel w = Some r -> Run (S fuel) w = Some r.
Proof.
  revert w. induction fuel as [|fuel IH]; intros w H.
  - simpl in *. destruct (ProcessOneEvent w) as [[w'|]|]; congruence.
  - change (Run (S fuel) w) with
      (match ProcessOneEvent w with
       | Err f => Some (Err f)
       | Ok None => Some (Ok w)
       | Ok (Some w') => Run fuel w'
       end) in H.
    change (Run (S (S fuel)) w) with
      (match ProcessOneEvent w with
       | Err f => Some (Err f)
       | Ok None => Some (Ok w)
       | Ok (Some w') => Run (S fuel) w'
       end).
    destruct (ProcessOneEvent w) as [[w'|]|]; auto.
Qed.

(** The state after [S j] events, when the first [S j] transmissions are
    all before the stop. *)
Lemma steps_to (j : nat) :
  Z.of_nat (S j) <= nPackets ->
  (forall k, (k <= j)%nat -> (tk k < T)%Q) ->
  Steps (S j) W0 =
  Ok (if Z.of_nat (S j) <? nPackets then Wrun j else Widle j).
Proof.
  induction j as [|j IH]; intros Hj Hlt.
  - cbn [Steps]. rewrite step_start. reflexivity.
  - apply Steps_snoc with (w1 := Wrun j).
    + rewrite IH; [|lia|intros; apply Hlt; lia].
      destruct (Z.ltb_spec (Z.of_nat (S j)) nPackets); [reflexivity|lia].
    + apply step_send; [apply Hlt; lia|lia].
Qed.

Lemma rev_sent_log (k : nat) :
  rev (slog k) = map (fun j => (tk j, packetSize)) (seq 0 k).
Proof.
  induction k as [|k IH]; [reflexivity|].
  rewrite seq_S, map_app. cbn [sent_log rev]. rewrite IH. reflexivity.
Qed.

Lemma tx_times_log (k : nat) (closed : bool) (id : EventId) (running : bool)
  (sent : Z) (s : Scheduler) :
  tx_times {| w_sched := s;
              w_app := app_at node peer packetSize nPackets dataRate
                         (slog k) closed id running sent |} =
  map tk (seq 0 k).
Proof.
  unfold tx_times, socket_log; cbn. rewrite rev_sent_log, map_map.
  reflexivity.
Qed.

(** The run of the generator, in the terms of the scheduler: it ends with
    an empty queue after some number [N >= 1] of transmissions, at the
    times [tx 0 .. tx (N - 1)], all before the stop; [N] is the packet
    count unless the next transmission would not be before the stop. *)
Lemma run_generator :
  exists (N : nat) (wf : World),
    Run (N + 2) W0 = Some (Ok wf) /\
    sc_events (w_sched wf) = [] /\
    m_running (w_app wf) = false /\
    m_packetsSent (w_app wf) = Z.of_nat N /\
    tx_times wf = map tk (seq 0 N) /\
    (0 < N)%nat /\ Z.of_nat N <= nPackets /\
    (forall k, (k < N)%nat -> (tk k < T)%Q) /\
    (Z.of_nat N < nPackets -> (T <= tk N)%Q).
Proof.
  destruct last_transmission as (j & Hj & Hlt & Hge).
  pose proof (steps_to j Hj Hlt) as Hs.
  destruct (Z.ltb_spec (Z.of_nat (S j)) nPackets) as [Hjn|Hjn].
  - exists (S j), (Wstopped_early j).
    destruct (step_stop_early j (Hge Hjn)) as (H1 & H2 & H3).
    split.
    { apply (Run_after_Steps _ _ _ _ _ Hs).
      cbn [Run]. rewrite H1, H2, H3. reflexivity. }
    split; [reflexivity|]. split; [reflexivity|]. split; [reflexivity|].
    split; [apply tx_times_log|]. split; [lia|]. split; [lia|].
    split; [intros; apply Hlt; lia|]. intros _. exact (Hge Hjn).
  - exists (S j), (Wstopped_idle j).
    destruct (step_stop_idle j) as (H1 & H2).
    split.
    { apply (Run_after_Steps _ _ _ _ _ Hs). apply Run_more.
      cbn [Run]. rewrite H1, H2. reflexivity. }
    split; [reflexivity|]. split; [reflexivity|]. split; [reflexivity|].
    split; [apply tx_times_log|]. split; [lia|]. split; [lia|].
    split; [intros; apply Hlt; lia|]. lia.
Qed.

End Run.

(** ** The number of packets of a run *)

Lemma packets_on_wire_tx_times (w : World) :
  packets_on_wire w = List.length (tx_times w).
Proof. unfold packets_on_wire, tx_times. now rewrite length_map. Qed.

(** The transmissions of a run are those of the progression that are before
    the stop, up to the packet count: with a positive interval their number
    is the ceiling of the duration over the interval, capped by the count. *)
Lemma count_closed_form (start stop i : Q) (n : Z) (N : nat) :
  (0 < i)%Q -> (0 < N)%nat -> Z.of_nat N <= n ->
  (forall k, (k < N)%nat -> (progression start i k < stop)%Q) ->
  (Z.of_nat N < n -> (stop <= progression start i N)%Q) ->
  Z.of_nat N = Z.min n (Qceiling ((stop - start) / i)).
Proof.
  intros Hi HN Hn Hlt Hge. unfold progression in *.
  set (x := ((stop - start) / i)%Q).
  assert (H1 : (inject_Z (Z.of_nat N - 1) < x)%Q).
  { apply Qlt_shift_div_l; [exact Hi|].
    specialize (Hlt (N - 1)%nat ltac:(lia)).
    replace (Z.of_nat (N - 1)) with (Z.of_nat N - 1) in Hlt by lia. lra. }
  assert (H2 : Z.of_nat N <= Qceiling x).
  { pose proof (Qle_ceiling x) as H.
    assert (H3 : (inject_Z (Z.of_nat N - 1) < inject_Z (Qceiling x))%Q)
      by lra.
    rewrite <- Zlt_Qlt in H3. lia. }
  destruct (Z.eq_dec (Z.of_nat N) n) as [E|E]; [lia|].
  assert (H3 : (x <= inject_Z (Z.of_nat N))%Q).
  { apply Qle_shift_div_r; [exact Hi|]. specialize (Hge ltac:(lia)). lra. }
  apply Qceiling_resp_le in H3. rewrite Qceiling_Z in H3. lia.
Qed.


Lemma code_interval_rounded (packetSize dataRate : Z) :
  0 <= packetSize -> packetSize * 8 < 2 ^ 32 ->
  code_interval packetSize dataRate = rounded_interval packetSize dataRate.
Proof.
  intros H0 H. unfold code_interval, rounded_interval.
  rewrite wrap32_small by lia. reflexivity.
Qed.

(** The start, the stop and the interval of the generator of [main] on a
    clock that is within one nanosecond. *)
Lemma main_times (Hacc : ns_accurate Seconds) :
  (- nanosecond <= Seconds (Z_to_double 0) <= nanosecond)%Q /\
  (20 - nanosecond <= Seconds (Z_to_double 20) <= 20 + nanosecond)%Q /\
  ((832 # 100000) - 2 * nanosecond <= code_interval 1040 1000000
   <= (832 # 100000) + 2 * nanosecond)%Q.
Proof.
  assert (H0 : double_value (Z_to_double 0) = Some 0%Q)
    by (vm_compute; reflexivity).
  assert (H20 : exists v, double_value (Z_to_double 20) = Some v /\ (v == 20)%Q)
    by (eexists; split; [vm_compute; reflexivity|vm_compute; reflexivity]).
  assert (Hi : double_value (double_quot (wrap32 (1040 * 8)) 1000000) =
               Some (4796153459164483 # 576460752303423488))
    by (vm_compute; reflexivity).
  destruct H20 as (v & H20 & Ev).
  unfold ns_accurate, max_seconds in Hacc.
  destruct (Hacc _ _ H0) as [A0 B0]; [lra|lra|].
  destruct (Hacc _ _ H20) as [A20 B20]; [lra|lra|].
  destruct (Hacc _ _ Hi) as [Ai Bi]; [lra|lra|].
  unfold code_interval, nanosecond in *. rewrite Ev in A20, B20.
  repeat split; lra.
Qed.

(** C1, as the code has it, for packet sizes whose bit count fits 32 bits.
    The interval is [packetSize * 8 / dataRate] as the code computes it: the
    quotient in [double], made a simulated time by [Seconds]. A run from
    [start] to a later [stop] ends, having sent one packet at each of the
    instants [start + k * interval] that lie before [stop], up to the packet
    count; with a positive interval their number is the ceiling of the
    duration over the interval, capped by the packet count, and it is the
    packet count whenever the duration is at least [packetCount * interval].
    For the generator of [main], on a clock within one nanosecond of the
    doubles, the 1000th packet is sent after 1000 events, between 8.3116 s
    and 8.3117 s (before 8.32 s); the application is then running with no
    send event pending, and the only event left is its stop at 20 s. *)
Theorem packets_sent_by_run :
  (forall (node : nat) (peer : Address) (packetSize nPackets dataRate : Z)
          (start stop : Time),
      0 < packetSize -> packetSize * 8 < 2 ^ 32 ->
      0 < nPackets < 2 ^ 32 -> 0 < dataRate -> (start < stop)%Q ->
      exists (fuel : nat) (wf : World),
        Run fuel (generator_world node peer packetSize nPackets dataRate
                    start stop) = Some (Ok wf) /\
        sc_events (w_sched wf) = [] /\
        m_packetsSent (w_app wf) = Z.of_nat (packets_on_wire wf) /\
        (forall k, (k < packets_on_wire wf)%nat ->
           (nth k (tx_times wf) 0 ==
            progression start (rounded_interval packetSize dataRate) k)%Q /\
           (progression start (rounded_interval packetSize dataRate) k
            < stop)%Q) /\
        (Z.of_nat (packets_on_wire wf) < nPackets ->
         (stop <= progression start (rounded_interval packetSize dataRate)
                    (packets_on_wire wf))%Q) /\
        ((0 < rounded_interval packetSize dataRate)%Q ->
         Z.of_nat (packets_on_wire wf) =
           Z.min nPackets
             (Qceiling ((stop - start)
                        / rounded_interval packetSize dataRate))) /\
        ((inject_Z nPackets * rounded_interval packetSize dataRate
          <= stop - start)%Q ->
         Z.of_nat (packets_on_wire wf) = nPackets)) /\
  map world_of (s_generators main) = [main_generator_world] /\
  (ns_accurate Seconds ->
   exists (w w' : World) (e : EventImpl),
     Steps 1000 main_generator_world = Ok w /\
     packets_on_wire w = 1000%nat /\
     m_packetsSent (w_app w) = 1000 /\
     Forall (fun t => (t <= 832 # 100)%Q) (tx_times w) /\
     (83116 # 10000 <= Now (w_sched w))%Q /\
     (Now (w_sched w) <= 83117 # 10000)%Q /\
     m_running (w_app w) = true /\
     pending_sends w = [] /\
     sc_events (w_sched w) = [e] /\
     ev_cb e = CbStopApplication /\ ev_cancel e = false /\
     (20 - nanosecond <= ev_ts e)%Q /\ (ev_ts e <= 20 + nanosecond)%Q /\
     ProcessOneEvent w = Ok (Some w') /\
     m_running (w_app w') = false /\
     sc_events (w_sched w') = []).
Proof.
  split; [|split].
  - intros node peer packetSize nPackets dataRate start stop Hp Hw Hn Hr Hss.
    destruct (run_generator node peer packetSize nPackets dataRate start stop
                Hn Hr Hss)
      as (N & wf & Hrun & Hq & _ & Hsent & Htx & HN & HNn & Hlt & Hge).
    assert (HNw : packets_on_wire wf = N)
      by (rewrite packets_on_wire_tx_times, Htx, length_map, length_seq;
          reflexivity).
    rewrite <- (code_interval_rounded packetSize dataRate) by lia.
    assert (Hlt' : forall k, (k < N)%nat ->
              (progression start (code_interval packetSize dataRate) k
               < stop)%Q).
    { intros k Hk. specialize (Hlt k Hk).
      rewrite (tx_progression packetSize dataRate start k) in Hlt. lra. }
    assert (Hge' : Z.of_nat N < nPackets ->
              (stop <= progression start (code_interval packetSize dataRate)
                         N)%Q).
    { intro H. specialize (Hge H).
      rewrite (tx_progression packetSize dataRate start N) in Hge. lra. }
    exists (N + 2)%nat, wf. rewrite HNw.
    split; [exact Hrun|]. split; [exact Hq|]. split; [exact Hsent|].
    split.
    { intros k Hk. split; [|now apply Hlt'].
      rewrite Htx.
      rewrite (nth_indep _ 0%Q (tx packetSize dataRate start 0%nat))
        by (rewrite length_map, length_seq; exact Hk).
      rewrite (map_nth (tx packetSize dataRate start)), seq_nth by exact Hk.
      apply tx_progression. }
    split; [exact Hge'|].
    split.
    { intro Hi.
      exact (count_closed_form start stop _ nPackets N Hi HN HNn Hlt' Hge'). }
    intro HD.
    destruct (Z.eq_dec (Z.of_nat N) nPackets) as [E|E]; [exact E|exfalso].
    assert (HNlt : Z.of_nat N < nPackets) by lia.
    specialize (Hge' HNlt). unfold progression in Hge'.
    set (i := code_interval packetSize dataRate) in *.
    assert (H1 : (1 <= inject_Z (Z.of_nat N))%Q)
      by (change 1%Q with (inject_Z 1); rewrite <- Zle_Qle; lia).
    assert (Hle : (inject_Z (Z.of_nat N) + 1 <= inject_Z nPackets)%Q).
    { change 1%Q with (inject_Z 1). rewrite <- inject_Z_plus, <- Zle_Qle.
      lia. }
    destruct (Qlt_le_dec 0 i) as [Hi|Hi].
    + assert (Hm : ((inject_Z (Z.of_nat N) + 1) * i <= inject_Z nPackets * i)%Q)
        by (apply Qmult_le_compat_r; [exact Hle|lra]).
      lra.
    + assert (Hm : (1 * i >= inject_Z (Z.of_nat N) * i)%Q).
      { setoid_replace (1 * i)%Q with (- (1 * - i))%Q by ring.
        setoid_replace (inject_Z (Z.of_nat N) * i)%Q
          with (- (inject_Z (Z.of_nat N) * - i))%Q by ring.
        apply Qopp_le_compat. apply Qmult_le_compat_r; [exact H1|lra]. }
      lra.
  - reflexivity.
  - intro Hacc.
    destruct (main_times Hacc) as ((A0 & B0) & (A20 & B20) & (Ai & Bi)).
    unfold nanosecond in *.
    set (i := code_interval 1040 1000000) in *.
    set (t0 := Seconds (Z_to_double 0)) in *.
    set (t20 := Seconds (Z_to_double 20)) in *.
    assert (Hk : forall k, (k <= 999)%nat ->
              ((0 + t0) + inject_Z (Z.of_nat k) * i <= 83117 # 10000)%Q /\
              ((k = 999)%nat ->
               (83116 # 10000 <= (0 + t0) + inject_Z (Z.of_nat k) * i)%Q)).
    { intros k Hk.
      assert (H : (inject_Z (Z.of_nat k) <= inject_Z 999)%Q)
        by (rewrite <- Zle_Qle; lia).
      assert (H' : (inject_Z (Z.of_nat k) * i <= inject_Z 999 * i)%Q)
        by (apply Qmult_le_compat_r; [exact H|lra]).
      change (inject_Z 999) with 999%Q in H'.
      split; [lra|]. intros ->.
      change (inject_Z (Z.of_nat 999)) with 999%Q. lra. }
    assert (Htx : forall k, (tx 1040 1000000 t0 k ==
                             (0 + t0) + inject_Z (Z.of_nat k) * i)%Q).
    { intro k. rewrite tx_progression. unfold progression. fold i. ring. }
    assert (Hss : (t0 < t20)%Q) by lra.
    pose proof (steps_to 3 (Some (ipv4 10 0 0 2, 1090)) 1040 1000 1000000
                  t0 t20 ltac:(lia) ltac:(lia) Hss 999 ltac:(lia)) as Hs.
    assert (Hlt : forall k, (k <= 999)%nat ->
              (tx 1040 1000000 t0 k < 0 + t20)%Q).
    { intros k Hk'. rewrite Htx. destruct (Hk k Hk') as [H _]. lra. }
    specialize (Hs Hlt). clear Hlt.
    destruct (Z.ltb_spec (Z.of_nat 1000) 1000) as [Hlt|_]; [lia|].
    destruct (step_stop_idle 3 (Some (ipv4 10 0 0 2, 1090)) 1040 1000 1000000
                t0 t20 999) as [Hstop _].
    exists (idle_state 3 (Some (ipv4 10 0 0 2, 1090)) 1040 1000 1000000
              t0 t20 999),
      (stopped_idle_state 3 (Some (ipv4 10 0 0 2, 1090)) 1040 1000 1000000
         t0 t20 999),
      (stop_ev t20).
    split; [exact Hs|]. unfold idle_state at 1 2 3 4.
    split; [rewrite packets_on_wire_tx_times, tx_times_log, length_map,
              length_seq; reflexivity|].
    split; [reflexivity|].
    split.
    { rewrite tx_times_log. apply Forall_forall. intros t Ht.
      apply in_map_iff in Ht as (k & <- & Hin). apply in_seq in Hin.
      rewrite Htx. destruct (Hk k ltac:(lia)) as [H _]. lra. }
    split.
    { change (83116 # 10000 <= tx 1040 1000000 t0 999)%Q. rewrite Htx.
      exact (proj2 (Hk 999%nat ltac:(lia)) eq_refl). }
    split.
    { change (tx 1040 1000000 t0 999 <= 83117 # 10000)%Q. rewrite Htx.
      exact (proj1 (Hk 999%nat ltac:(lia))). }
    split; [reflexivity|]. split; [reflexivity|]. split; [reflexivity|].
    split; [reflexivity|]. split; [reflexivity|].
    split; [cbn [stop_ev ev_ts]; lra|]. split; [cbn [stop_ev ev_ts]; lra|].
    split; [exact Hstop|]. split; reflexivity.
Qed.

(** ** The transmit times *)

(** X1: the transmit times of a run are the arithmetic progression from the
    start time whose difference is the interval that [ScheduleTx] computes:
    the product [m_packetSize * 8] in [uint32_t], its quotient by the rate in
    [double], made a simulated time by [Seconds]. *)
Theorem transmit_times_progression :
  forall (node : nat) (peer : Address) (packetSize nPackets dataRate : Z)
         (start stop : Time),
    0 < nPackets < 2 ^ 32 -> 0 < dataRate -> (start < stop)%Q ->
    exists (fuel : nat) (wf : World),
      Run fuel (generator_world node peer packetSize nPackets dataRate
                  start stop) = Some (Ok wf) /\
      (0 < packets_on_wire wf)%nat /\
      (forall k, (k < packets_on_wire wf)%nat ->
         (nth k (tx_times wf) 0 ==
          progression start (code_interval packetSize dataRate) k)%Q).
Proof.
  intros node peer packetSize nPackets dataRate start stop Hn Hr Hss.
  destruct (run_generator node peer packetSize nPackets dataRate start stop
              Hn Hr Hss)
    as (N & wf & Hrun & _ & _ & _ & Htx & HN & _).
  assert (HNw : packets_on_wire wf = N)
    by (rewrite packets_on_wire_tx_times, Htx, length_map, length_seq;
        reflexivity).
  exists (N + 2)%nat, wf. rewrite HNw.
  split; [exact Hrun|]. split; [exact HN|].
  intros k Hk. rewrite Htx.
  rewrite (nth_indep _ 0%Q (tx packetSize dataRate start 0%nat))
    by (rewrite length_map, length_seq; exact Hk).
  rewrite (map_nth (tx packetSize dataRate start)), seq_nth by exact Hk.
  apply tx_progression.
Qed.

(** ** The invariant along the life cycle *)


(** ** Starting twice *)

Lemma StartApplication_keeps_pending (s : Scheduler) (a : MyApp) (w' : World) :
  StartApplication {| w_sched := s; w_app := a |} = Ok w' ->
  m_packetsSent (w_app w') = 1 /\
  (forall e, In e (pending_sends {| w_sched := s; w_app := a |}) ->
             In e (pending_sends w')) /\
  (1 < m_nPackets a ->
   List.length (pending_sends w') =
   S (List.length (pending_sends {| w_sched := s; w_app := a |}))) /\
  (m_nPackets a <= 1 ->
   pending_sends w' = pending_sends {| w_sched := s; w_app := a |}).
Proof.
  unfold StartApplication, SendPacket. cbn [w_app w_sched m_socket].
  destruct (m_socket a) as [k|]; [|discriminate].
  cbn [w_app w_sched m_socket m_packetsSent m_nPackets].
  rewrite ?wrap32_small by lia. change (0 + 1) with 1.
  destruct (Z.ltb_spec 1 (m_nPackets a)) as [Hlt|Hge].
  - unfold ScheduleTx. cbn [w_app w_sched m_running].
    destruct (double_div _ _) as [x|]; [|discriminate].
    unfold Schedule. intros [= <-]. split; [reflexivity|].
    unfold pending_sends. cbn [w_sched sc_events].
    split; [|split; [|lia]].
    + intros e He. apply filter_In in He as [He Hl]. apply filter_In.
      split; [|exact Hl]. apply In_insert_event. now right.
    + intros _. rewrite filter_insert_event_length. reflexivity.
  - intros [= <-]. split; [reflexivity|].
    split; [auto|]. split; [lia|]. reflexivity.
Qed.

(** C6, as the code has it: [StartApplication] is not guarded against a
    second call. Every successful call resets the counter (it is 1 after the
    transmission of the call), cancels no send event that is pending, and
    schedules one more send event exactly when the packet count is above 1;
    so a second start while a send event is pending, with a packet count
    above 1, leaves two send events pending. Along a life cycle with at most
    one start, at most one send event is pending at any time. *)
Theorem single_start_one_send_chain :
  (forall w : World, lifecycle w -> (List.length (pending_sends w) <= 1)%nat) /\
  (forall (s : Scheduler) (a : MyApp) (w' : World),
      StartApplication {| w_sched := s; w_app := a |} = Ok w' ->
      m_packetsSent (w_app w') = 1 /\
      (forall e, In e (pending_sends {| w_sched := s; w_app := a |}) ->
                 In e (pending_sends w')) /\
      (1 < m_nPackets a ->
       List.length (pending_sends w') =
       S (List.length (pending_sends {| w_sched := s; w_app := a |}))) /\
      (m_nPackets a <= 1 ->
       pending_sends w' = pending_sends {| w_sched := s; w_app := a |})).
Proof.
  split.
  - intros w H. apply life_one_pending, lifecycle_life, H.
  - exact StartApplication_keeps_pending.
Qed.

(** The agenda with two starts is outside the life cycle. *)
Lemma double_start_agenda :
  agenda 2 (w_sched double_start_world) /\
  ~ agenda 1 (w_sched double_start_world).
Proof.
  split.
  - constructor; vm_compute.
    + intros e [<-|[<-|[<-|[]]]]; discriminate.
    + lia.
    + intros e [<-|[<-|[<-|[]]]]; lia.
    + repeat constructor; simpl; intuition discriminate.
  - intros [_ H _ _]. vm_compute in H. lia.
Qed.

(** * Further properties of the generator *)

(** ** What one transmission does *)

Lemma SendPacket_Ok (s : Scheduler) (a : MyApp) (w' : World) :
  SendPacket {| w_sched := s; w_app := a |} = Ok w' ->
  exists k : Socket,
    m_socket a = Some k /\
    m_socket (w_app w') =
      Some (Socket_Send (Now s) (m_packetSize a) k) /\
    m_packetsSent (w_app w') = wrap32 (m_packetsSent a + 1) /\
    m_nPackets (w_app w') = m_nPackets a /\
    m_packetSize (w_app w') = m_packetSize a /\
    m_dataRate (w_app w') = m_dataRate a /\
    m_peer (w_app w') = m_peer a /\
    m_running (w_app w') = m_running a /\
    ((w_sched w' = s /\ m_sendEvent (w_app w') = m_sendEvent a /\
      (m_running a = false \/
       m_nPackets a <= wrap32 (m_packetsSent a + 1))) \/
     (exists x : double,
         w_sched w' = snd (Schedule (Seconds x) CbSendPacket s) /\
         m_sendEvent (w_app w') = Some (sc_uid s) /\
         m_running a = true /\
         wrap32 (m_packetsSent a + 1) < m_nPackets a /\
         double_div (wrap32 (m_packetSize a * 8)) (m_dataRate a) = Some x)).
Proof.
  unfold SendPacket. cbn [w_app w_sched].
  destruct (m_socket a) as [k|]; [|discriminate].
  destruct (Z.ltb_spec (wrap32 (m_packetsSent a + 1)) (m_nPackets a))
    as [Hlt|Hge].
  - unfold ScheduleTx.
    cbn [w_app w_sched m_running m_packetSize m_dataRate m_socket m_peer
         m_nPackets m_sendEvent m_packetsSent].
    destruct (m_running a) eqn:Er.
    + destruct (double_div _ _) as [x|] eqn:Ed; [|discriminate].
      unfold Schedule. intros [= <-]. exists k.
      repeat (split; [reflexivity|]). right. exists x.
      repeat split; auto.
    + intros [= <-]. exists k.
      repeat (split; [try reflexivity; auto|]). left. auto.
  - intros [= <-]. exists k.
    repeat (split; [reflexivity|]). left. auto.
Qed.

(** X2: [SendPacket] does not look at [m_running]: on an application that is not
    running it still hands one packet to the socket and counts it; it
    schedules nothing. *)
Theorem SendPacket_when_not_running :
  forall (w : World) (k : Socket),
    m_running (w_app w) = false ->
    m_socket (w_app w) = Some k ->
    exists w' : World,
      SendPacket w = Ok w' /\
      socket_log w' =
        socket_log w ++ [(Now (w_sched w), m_packetSize (w_app w))] /\
      m_packetsSent (w_app w') = wrap32 (m_packetsSent (w_app w) + 1) /\
      m_running (w_app w') = false /\
      w_sched w' = w_sched w /\
      m_sendEvent (w_app w') = m_sendEvent (w_app w).
Proof.
  intros [s a] k Hr Hk. cbn [w_app w_sched] in *.
  unfold SendPacket, ScheduleTx. cbn [w_app w_sched]. rewrite Hk.
  cbn [w_app w_sched m_running]. rewrite Hr.
  destruct (_ <? _); eexists; (split; [reflexivity|]);
    unfold socket_log; cbn; rewrite Hk; auto.
Qed.

(** ** When starting faults *)

(** X3: [StartApplication] faults in exactly two cases: the socket is null, or
    the socket is there, more than one packet is to be sent and the data rate
    is zero. *)
Theorem StartApplication_Err_iff :
  forall (w : World) (f : Fault),
    StartApplication w = Err f <->
    (f = NullSocket /\ m_socket (w_app w) = None) \/
    (f = DegenerateInterval /\ m_socket (w_app w) <> None /\
     1 < m_nPackets (w_app w) /\ m_dataRate (w_app w) = 0).
Proof.
  intros [s a] f. unfold StartApplication, SendPacket, ScheduleTx.
  cbn [w_app w_sched m_socket m_packetsSent m_nPackets m_running
       m_packetSize m_dataRate].
  rewrite ?wrap32_small by lia. change (0 + 1) with 1.
  destruct (m_socket a) as [k|].
  - cbn [w_app w_sched m_socket m_packetsSent m_nPackets m_running
         m_packetSize m_dataRate].
    destruct (Z.ltb_spec 1 (m_nPackets a)) as [Hlt|Hge].
    + destruct (double_div _ _) as [x|] eqn:Ed.
      * assert (m_dataRate a <> 0).
        { intro H.
          apply (double_div_None (wrap32 (m_packetSize a * 8))) in H.
          congruence. }
        unfold Schedule. split; [discriminate|].
        intros [[_ H']|(_ & _ & _ & H')]; [discriminate|contradiction].
      * apply double_div_None in Ed. split.
        -- intros [= <-]. right. repeat split; auto. discriminate.
        -- intros [[_ H']|(-> & _)]; [discriminate|reflexivity].
    + split; [discriminate|].
      intros [[_ H']|(_ & _ & H' & _)]; [discriminate|lia].
  - split.
    + intros [= <-]. left. auto.
    + intros [[-> _]|(_ & H & _)]; [reflexivity|congruence].
Qed.

(** ** Runs do not fault *)

Lemma Invoke_keeps_socket (cb : Callback) (w : World) :
  m_socket (w_app w) <> None -> m_dataRate (w_app w) <> 0 ->
  exists w', Invoke cb w = Ok w' /\
             m_socket (w_app w') <> None /\ m_dataRate (w_app w') <> 0.
Proof.
  intros Hk Hr. destruct w as [s a]. cbn [w_app] in *.
  destruct (m_socket a) as [k|] eqn:Ek; [clear Hk|congruence].
  assert (Hd : forall x, double_div x (m_dataRate a) <> None)
    by (intros x H; apply double_div_None in H; contradiction).
  destruct cb; cbn [Invoke].
  - unfold StartApplication, SendPacket, ScheduleTx.
    cbn [w_app w_sched m_socket m_packetsSent m_nPackets m_running
         m_packetSize m_dataRate]. rewrite Ek.
    cbn [w_app w_sched m_socket m_packetsSent m_nPackets m_running
         m_packetSize m_dataRate].
    destruct (_ <? _).
    + destruct (double_div _ _) as [x|] eqn:Ed; [|now apply Hd in Ed].
      unfold Schedule. eexists. split; [reflexivity|]. cbn.
      split; [discriminate|exact Hr].
    + eexists. split; [reflexivity|]. cbn. split; [discriminate|exact Hr].
  - eexists. split; [reflexivity|]. unfold StopApplication. cbn.
    rewrite Ek. split; [discriminate|exact Hr].
  - unfold SendPacket, ScheduleTx.
    cbn [w_app w_sched m_socket m_packetsSent m_nPackets m_running
         m_packetSize m_dataRate]. rewrite Ek.
    cbn [w_app w_sched m_socket m_packetsSent m_nPackets m_running
         m_packetSize m_dataRate].
    destruct (_ <? _).
    + destruct (m_running a).
      * destruct (double_div _ _) as [x|] eqn:Ed; [|now apply Hd in Ed].
        unfold Schedule. eexists. split; [reflexivity|]. cbn.
        split; [discriminate|exact Hr].
      * eexists. split; [reflexivity|]. cbn. split; [discriminate|exact Hr].
    + eexists. split; [reflexivity|]. cbn. split; [discriminate|exact Hr].
Qed.

(** X4: with a socket and a non-zero data rate no event faults, whatever the
    queue holds and however many events are processed: not a start, not a
    stop, not a send, in any order and any number of times. *)
Theorem Steps_never_fault :
  forall (k : nat) (w : World),
    m_socket (w_app w) <> None -> m_dataRate (w_app w) <> 0 ->
    exists w' : World,
      Steps k w = Ok w' /\
      m_socket (w_app w') <> None /\ m_dataRate (w_app w') <> 0.
Proof.
  induction k as [|k IH]; intros w Hk Hr.
  - exists w. repeat split; assumption.
  - cbn [Steps]. unfold ProcessOneEvent.
    destruct (sc_events (w_sched w)) as [|e q].
    + exists w. repeat split; assumption.
    + destruct (ev_cancel e).
      * apply IH; assumption.
      * destruct (Invoke_keeps_socket (ev_cb e)
                    {| w_sched := {| sc_now := ev_ts e;
                                     sc_uid := sc_uid (w_sched w);
                                     sc_events := q |};
                       w_app := w_app w |} Hk Hr) as (w2 & -> & Hk2 & Hr2).
        cbn [bind]. apply IH; assumption.
Qed.

(** ** After the stop *)

Lemma socket_log_StopApplication (w : World) :
  socket_log (StopApplication w) = socket_log w.
Proof.
  unfold socket_log, StopApplication. cbn [w_app m_socket].
  destruct (m_socket (w_app w)); reflexivity.
Qed.

Lemma quiet_StopApplication (w : World) : quiet w -> quiet (StopApplication w).
Proof.
  intros Hq e He. unfold StopApplication in He. cbn [w_sched] in He.
  destruct (IsRunning _ _); [|now apply Hq].
  cbn [Cancel sc_events] in He. apply in_map_iff in He as (y & <- & Hy).
  rewrite cancel_event_cb. destruct (Hq y Hy) as [H|H]; [|now right].
  left. unfold cancel_event. destruct (names _ y); [reflexivity|exact H].
Qed.

Lemma quiet_step (w w' : World) :
  quiet w -> ProcessOneEvent w = Ok (Some w') ->
  quiet w' /\ socket_log w' = socket_log w /\
  m_packetsSent (w_app w') = m_packetsSent (w_app w) /\
  (m_running (w_app w) = false -> m_running (w_app w') = false).
Proof.
  intros Hq H. unfold ProcessOneEvent in H.
  destruct (sc_events (w_sched w)) as [|e q] eqn:Eq; [discriminate|].
  assert (Hq1 : quiet {| w_sched := {| sc_now := ev_ts e;
                                       sc_uid := sc_uid (w_sched w);
                                       sc_events := q |};
                         w_app := w_app w |}).
  { intros x Hx. apply Hq. rewrite Eq. now right. }
  destruct (ev_cancel e) eqn:Ec.
  - injection H as <-. repeat split; auto.
  - destruct (Hq e) as [Hc|Hcb]; [rewrite Eq; now left|congruence|].
    rewrite Hcb in H. cbn [Invoke bind] in H. injection H as <-.
    split; [now apply quiet_StopApplication|].
    split; [rewrite socket_log_StopApplication; reflexivity|].
    split; reflexivity.
Qed.

Lemma quiet_Steps (k : nat) (w w' : World) :
  quiet w -> Steps k w = Ok w' ->
  quiet w' /\ socket_log w' = socket_log w /\
  m_packetsSent (w_app w') = m_packetsSent (w_app w) /\
  (m_running (w_app w) = false -> m_running (w_app w') = false).
Proof.
  revert w. induction k as [|k IH]; intros w Hq H.
  - injection H as <-. auto.
  - cbn [Steps] in H.
    destruct (ProcessOneEvent w) as [[w1|]|f] eqn:E; try discriminate.
    + destruct (quiet_step _ _ Hq E) as (Hq1 & Hl1 & Hs1 & Hr1).
      destruct (IH w1 Hq1 H) as (Hq2 & Hl2 & Hs2 & Hr2).
      repeat split; auto; congruence.
    + injection H as <-. auto.
Qed.

(** X5: once the application of a life cycle has been stopped with no start left
    in the queue, it never transmits again: whatever is still queued, the
    packets handed to the socket and the counter stay as the stop left them,
    and the application stays stopped. *)
Theorem no_transmission_after_stop :
  forall (w w1 : World) (e : EventImpl) (q : list EventImpl),
    lifecycle w ->
    sc_events (w_sched w) = e :: q ->
    ev_cb e = CbStopApplication -> ev_cancel e = false ->
    (forall x, In x q -> is_start x = false) ->
    ProcessOneEvent w = Ok (Some w1) ->
    m_running (w_app w1) = false /\
    pending_sends w1 = [] /\
    forall (k : nat) (w2 : World),
      Steps k w1 = Ok w2 ->
      socket_log w2 = socket_log w1 /\
      m_packetsSent (w_app w2) = m_packetsSent (w_app w1) /\
      m_running (w_app w2) = false.
Proof.
  intros w w1 e q Hl Eq Hcb Hc Hs H.
  pose proof (lifecycle_life _ Hl) as L. unfold life_of in L. rewrite Eq in L.
  unfold ProcessOneEvent in H. rewrite Eq, Hc, Hcb in H.
  cbn [Invoke bind] in H. injection H as <-.
  set (w0 := {| w_sched := {| sc_now := ev_ts e;
                              sc_uid := sc_uid (w_sched w);
                              sc_events := q |};
                w_app := w_app w |}).
  destruct (life_stopped w0 (life_tail _ _ _ _ L)) as [_ Hp].
  split; [reflexivity|]. split; [exact Hp|].
  assert (Hq : quiet (StopApplication w0)).
  { intros x Hx.
    assert (Hlive : live_send x = false).
    { destruct (live_send x) eqn:E; [|reflexivity].
      assert (In x (pending_sends (StopApplication w0)))
        by (apply filter_In; auto).
      rewrite Hp in H. contradiction. }
    assert (Hst : is_start x = false).
    { unfold StopApplication in Hx. cbn [w_sched] in Hx.
      destruct (IsRunning _ _).
      - cbn [Cancel sc_events] in Hx.
        apply in_map_iff in Hx as (y & <- & Hy).
        rewrite is_start_cancel_event. now apply Hs.
      - now apply Hs. }
    unfold live_send in Hlive. unfold is_start in Hst.
    destruct (ev_cb x); [discriminate|now right|].
    left. now apply negb_false_iff. }
  intros k w2 Hk.
  destruct (quiet_Steps k _ _ Hq Hk) as (_ & Hl2 & Hs2 & Hr2).
  repeat split; auto.
Qed.

Lemma lifecycle_Steps (k : nat) (w w' : World) :
  lifecycle w -> Steps k w = Ok w' -> lifecycle w'.
Proof.
  revert w. induction k as [|k IH]; intros w Hl H.
  - injection H as <-. exact Hl.
  - cbn [Steps] in H.
    destruct (ProcessOneEvent w) as [[w1|]|f] eqn:E; try discriminate.
    + apply (IH w1); [exact (lc_event _ _ Hl E)|exact H].
    + injection H as <-. exact Hl.
Qed.

(** ** The counter and the socket *)

Lemma packets_on_wire_socket (w : World) (k : Socket) :
  m_socket (w_app w) = Some k ->
  packets_on_wire w = List.length (sk_sent k).
Proof.
  intro H. unfold packets_on_wire, socket_log. rewrite H.
  apply length_rev.
Qed.

Lemma packets_on_wire_StopApplication (w : World) :
  packets_on_wire (StopApplication w) = packets_on_wire w.
Proof.
  unfold packets_on_wire. now rewrite socket_log_StopApplication.
Qed.

Lemma start_in_stopped_queue (w : World) (e : EventImpl) :
  In e (sc_events (w_sched (StopApplication w))) -> is_start e = true ->
  exists e', In e' (sc_events (w_sched w)) /\ is_start e' = true.
Proof.
  unfold StopApplication. cbn [w_sched].
  destruct (IsRunning _ _); [|eauto].
  cbn [Cancel sc_events]. intros He Hs.
  apply in_map_iff in He as (y & <- & Hy).
  rewrite is_start_cancel_event in Hs. eauto.
Qed.

Lemma counted_step (w w' : World) :
  life_of w -> counted w -> ProcessOneEvent w = Ok (Some w') -> counted w'.
Proof.
  intros L [Hc Hz] H. unfold life_of in L. unfold ProcessOneEvent in H.
  destruct (sc_events (w_sched w)) as [|e q] eqn:Eq; [discriminate|].
  destruct (ev_cancel e) eqn:Ec.
  - injection H as <-. split; [exact Hc|].
    intros (x & Hx & Hs). apply Hz. exists x. split; [now right|exact Hs].
  - destruct (ev_cb e) eqn:Ecb; cbn [Invoke bind] in H.
    + (* the start: nothing was sent before it *)
      assert (He : is_start e = true) by (unfold is_start; now rewrite Ecb).
      pose proof (life_no_start_left _ _ _ _ L He) as Hs.
      assert (H0 : packets_on_wire w = 0%nat)
        by (apply Hz; exists e; split; [now left|exact He]).
      unfold StartApplication in H. cbn [w_app w_sched] in H.
      destruct (m_socket (w_app w)) as [k|] eqn:Ek; [|discriminate].
      destruct (SendPacket _) as [w2|] eqn:E2; [|discriminate].
      injection H as <-.
      apply SendPacket_Ok in E2
        as (k' & Ek' & Ek2 & Hsent & _ & _ & _ & _ & _ & Hsched).
      cbn [m_socket m_packetsSent m_packetSize] in *.
      injection Ek' as <-.
      rewrite (packets_on_wire_socket w k Ek) in H0.
      split.
      * rewrite Hsent, (packets_on_wire_socket w2 _ Ek2). cbn.
        rewrite H0. reflexivity.
      * intros (x & Hx & Hsx). exfalso.
        destruct Hsched as [(Es & _)|(y & Es & _)]; rewrite Es in Hx;
          cbn in Hx.
        -- rewrite (Hs x Hx) in Hsx. discriminate.
        -- apply In_insert_event in Hx as [->|Hx]; [discriminate|].
           rewrite (Hs x Hx) in Hsx. discriminate.
    + (* a stop *)
      injection H as <-. split.
      * rewrite packets_on_wire_StopApplication. exact Hc.
      * intros (x & Hx & Hsx). rewrite packets_on_wire_StopApplication.
        apply start_in_stopped_queue in Hx as (y & Hy & Hsy); [|exact Hsx].
        apply Hz. exists y. split; [now right|exact Hsy].
    + (* a send *)
      assert (He : live_send e = true)
        by (unfold live_send; now rewrite Ecb, Ec).
      assert (Hs : forall x, In x q -> is_start x = false).
      { intros x Hx. destruct (is_start x) eqn:E; [|reflexivity].
        rewrite (li_unstarted _ _ _ L x e) in He; simpl; auto. }
      destruct (li_pending _ _ _ L e (or_introl eq_refl) He) as [_ Hlt].
      pose proof (li_sent _ _ _ L) as Hsent0.
      pose proof (li_n _ _ _ L) as Hn.
      destruct (SendPacket _) as [w2|] eqn:E2; [|discriminate].
      injection H as <-.
      apply SendPacket_Ok in E2
        as (k & Ek & Ek2 & Hsent & _ & _ & _ & _ & _ & Hsched).
      rewrite wrap32_small in Hsent by lia.
      split.
      * rewrite Hsent, Hc, (packets_on_wire_socket w k Ek),
          (packets_on_wire_socket w2 _ Ek2). cbn [Socket_Send sk_sent length].
        lia.
      * intros (x & Hx & Hsx). exfalso.
        destruct Hsched as [(Es & _)|(y & Es & _)]; rewrite Es in Hx;
          cbn in Hx.
        -- rewrite (Hs x Hx) in Hsx. discriminate.
        -- apply In_insert_event in Hx as [->|Hx]; [discriminate|].
           rewrite (Hs x Hx) in Hsx. discriminate.
Qed.

(** X6: along the life cycle of a generator that was given a fresh socket, the
    counter [m_packetsSent] is at every moment the number of packets handed
    to the socket, and never more than the packet count. *)
Theorem counter_counts_packets :
  forall (s : Scheduler) (node : nat) (peer : Address)
         (packetSize nPackets dataRate : Z) (k : nat) (w : World),
    agenda 1 s -> 0 < nPackets < 2 ^ 32 ->
    Steps k {| w_sched := s;
               w_app := Setup (Some (CreateSocket node)) peer packetSize
                          nPackets dataRate MyApp_new |} = Ok w ->
    m_packetsSent (w_app w) = Z.of_nat (packets_on_wire w) /\
    Z.of_nat (packets_on_wire w) <= nPackets.
Proof.
  intros s node peer packetSize nPackets dataRate k w Ha Hn.
  set (w0 := {| w_sched := s;
                w_app := Setup (Some (CreateSocket node)) peer packetSize
                           nPackets dataRate MyApp_new |}).
  assert (L0 : life_of w0) by now apply life_configured.
  assert (C0 : counted w0) by (split; [reflexivity|intros _; reflexivity]).
  assert (N0 : m_nPackets (w_app w0) = nPackets) by reflexivity.
  clearbody w0. revert w0 L0 C0 N0.
  induction k as [|k IH]; intros w0 L0 C0 N0 H.
  - injection H as <-. split; [apply C0|].
    rewrite <- (proj1 C0), <- N0. apply (li_sent _ _ _ L0).
  - cbn [Steps] in H.
    destruct (ProcessOneEvent w0) as [[w1|]|f] eqn:E; try discriminate.
    + apply (IH w1); [exact (life_step _ _ L0 E)
                     |exact (counted_step _ _ L0 C0 E)| |exact H].
      rewrite <- N0. clear - E L0.
      (* the packet count is never written after [Setup] *)
      unfold ProcessOneEvent in E.
      destruct (sc_events (w_sched w0)) as [|e q]; [discriminate|].
      destruct (ev_cancel e); [injection E as <-; reflexivity|].
      destruct (ev_cb e); cbn [Invoke bind] in E.
      * unfold StartApplication in E. cbn [w_app w_sched] in E.
        destruct (m_socket (w_app w0)); [|discriminate].
        destruct (SendPacket _) as [w2|] eqn:E2; [|discriminate].
        injection E as <-.
        apply SendPacket_Ok in E2 as (_ & _ & _ & _ & Hn & _). exact Hn.
      * injection E as <-. reflexivity.
      * destruct (SendPacket _) as [w2|] eqn:E2; [|discriminate].
        injection E as <-.
        apply SendPacket_Ok in E2 as (_ & _ & _ & _ & Hn & _). exact Hn.
    + injection H as <-. split; [apply C0|].
      rewrite <- (proj1 C0), <- N0. apply (li_sent _ _ _ L0).
Qed.

(** ** How a run ends *)

Lemma Run_le (f f' : nat) (w : World) (r : Res World) :
  (f <= f')%nat -> Run f w = Some r -> Run f' w = Some r.
Proof.
  induction 1 as [|f' _ IH]; intro H; [exact H|].
  apply Run_more. now apply IH.
Qed.

Lemma sent_log_sizes (packetSize dataRate : Z) (start : Time) (k : nat) :
  Forall (fun p => snd p = packetSize) (sent_log packetSize dataRate start k).
Proof. induction k; simpl; constructor; auto. Qed.

Lemma sent_log_length (packetSize dataRate : Z) (start : Time) (k : nat) :
  List.length (sent_log packetSize dataRate start k) = k.
Proof. induction k; simpl; auto. Qed.

(** X7: a run of one generator always ends, after at most [packetCount + 2]
    events: the queue is empty, the application is stopped, and its socket is
    bound, connected to the configured peer and closed, having been handed
    between one and [packetCount] packets, each of [packetSize] bytes. *)
Theorem run_ends_stopped_and_closed :
  forall (node : nat) (peer : Address) (packetSize nPackets dataRate : Z)
         (start stop : Time),
    0 < nPackets < 2 ^ 32 -> 0 < dataRate -> (start < stop)%Q ->
    exists (wf : World) (log : list (Time * Z)),
      Run (Z.to_nat nPackets + 2)
        (generator_world node peer packetSize nPackets dataRate start stop) =
        Some (Ok wf) /\
      sc_events (w_sched wf) = [] /\
      m_running (w_app wf) = false /\
      m_socket (w_app wf) =
        Some {| sk_node := node; sk_bound := true; sk_peer := peer;
                sk_closed := true; sk_sent := log |} /\
      Forall (fun p => snd p = packetSize) log /\
      (1 <= List.length log)%nat /\
      Z.of_nat (List.length log) <= nPackets.
Proof.
  intros node peer packetSize nPackets dataRate start stop Hn Hr Hss.
  destruct (last_transmission packetSize nPackets dataRate start stop Hn Hss)
    as (j & Hj & Hlt & Hge).
  pose proof (steps_to node peer packetSize nPackets dataRate start stop
                Hn Hr Hss j Hj Hlt) as Hs.
  destruct (Z.ltb_spec (Z.of_nat (S j)) nPackets) as [Hjn|Hjn].
  - exists (stopped_early_state node peer packetSize nPackets dataRate start j),
      (sent_log packetSize dataRate start (S j)).
    destruct (step_stop_early node peer packetSize nPackets dataRate start
                stop j (Hge Hjn)) as (H1 & H2 & H3).
    split.
    { apply (Run_le (S j + 2)); [lia|].
      apply (Run_after_Steps _ _ _ _ _ Hs).
      cbn [Run]. rewrite H1, H2, H3. reflexivity. }
    split; [reflexivity|]. split; [reflexivity|]. split; [reflexivity|].
    split; [apply sent_log_sizes|].
    rewrite sent_log_length. split; lia.
  - exists (stopped_idle_state node peer packetSize nPackets dataRate start
              stop j),
      (sent_log packetSize dataRate start (S j)).
    destruct (step_stop_idle node peer packetSize nPackets dataRate start
                stop j) as (H1 & H2).
    split.
    { apply (Run_le (S j + 1)); [lia|].
      apply (Run_after_Steps _ _ _ _ _ Hs).
      cbn [Run]. rewrite H1, H2. reflexivity. }
    split; [reflexivity|]. split; [reflexivity|]. split; [reflexivity|].
    split; [apply sent_log_sizes|].
    rewrite sent_log_length. split; lia.
Qed.

(** X8: a stop that comes no later than the last transmission would: the run
    ends with the counter below the packet count, and every packet was
    handed to the socket strictly before the stop time. *)
Theorem early_stop_leaves_budget :
  forall (node : nat) (peer : Address) (packetSize nPackets dataRate : Z)
         (start stop : Time),
    0 < nPackets < 2 ^ 32 -> 0 < dataRate -> (start < stop)%Q ->
    (stop <= progression start (code_interval packetSize dataRate)
               (Z.to_nat nPackets - 1))%Q ->
    exists (fuel : nat) (wf : World),
      Run fuel (generator_world node peer packetSize nPackets dataRate
                  start stop) = Some (Ok wf) /\
      m_packetsSent (w_app wf) < nPackets /\
      Z.of_nat (packets_on_wire wf) < nPackets /\
      Forall (fun t => (t < stop)%Q) (tx_times wf).
Proof.
  intros node peer packetSize nPackets dataRate start stop Hn Hr Hss Hearly.
  destruct (run_generator node peer packetSize nPackets dataRate start stop
              Hn Hr Hss)
    as (N & wf & Hrun & _ & _ & Hsent & Htx & HN & HNn & Hlt & _).
  assert (HNlt : Z.of_nat N < nPackets).
  { destruct (Z.eq_dec (Z.of_nat N) nPackets) as [E|E]; [exfalso|lia].
    specialize (Hlt (Z.to_nat nPackets - 1)%nat ltac:(lia)).
    rewrite tx_progression in Hlt. lra. }
  exists (N + 2)%nat, wf. split; [exact Hrun|].
  split; [lia|]. split.
  - rewrite packets_on_wire_tx_times, Htx, length_map, length_seq. exact HNlt.
  - rewrite Htx. apply Forall_forall. intros t Ht.
    apply in_map_iff in Ht as (k & <- & Hk). apply in_seq in Hk.
    specialize (Hlt k ltac:(lia)). lra.
Qed.

(** ** Starting again after a stop *)

(** X9: [StartApplication] does not look at what [StopApplication] left
    behind:
    called on a stopped application it makes it run again, resets the counter
    and hands a packet to the socket that the stop closed. *)
Theorem StartApplication_after_stop :
  forall (w : World) (k : Socket),
    m_socket (w_app w) = Some k ->
    m_nPackets (w_app w) <= 1 \/ m_dataRate (w_app w) <> 0 ->
    exists w' : World,
      StartApplication (StopApplication w) = Ok w' /\
      m_running (w_app w') = true /\
      m_packetsSent (w_app w') = 1 /\
      socket_log w' =
        socket_log w ++ [(Now (w_sched w), m_packetSize (w_app w))] /\
      option_map sk_closed (m_socket (w_app w')) = Some true.
Proof.
  intros [s a] k Hk Hok. cbn [w_app w_sched] in *.
  unfold socket_log at 2. cbn [w_app]. rewrite Hk.
  unfold StopApplication. cbn [w_app w_sched]. rewrite Hk.
  set (s' := if IsRunning (m_sendEvent a) s then Cancel (m_sendEvent a) s
             else s).
  assert (Hnow : Now s' = Now s)
    by (subst s'; destruct (IsRunning _ _); reflexivity).
  clearbody s'.
  unfold StartApplication, SendPacket, ScheduleTx.
  cbn [w_app w_sched m_socket m_peer m_packetSize m_nPackets m_dataRate
       m_sendEvent m_running m_packetsSent].
  rewrite ?wrap32_small by lia. change (0 + 1) with 1. rewrite Hnow.
  destruct (Z.ltb_spec 1 (m_nPackets a)) as [Hlt|Hge].
  - destruct Hok as [Hok|Hok]; [lia|].
    destruct (double_div _ _) as [x|] eqn:Ed;
      [|apply double_div_None in Ed; contradiction].
    destruct (Schedule _ _ _) as [id s2]. eexists.
    split; [reflexivity|]. unfold socket_log. cbn. auto.
  - eexists. split; [reflexivity|]. unfold socket_log. cbn. auto.
Qed.

(** ** The observers *)

Lemma lines_from_line (l : list Token) (cur : list Token) (t : ostream) :
  Forall (fun x => x <> TEndl) l ->
  exists line, lines_from cur (l ++ TEndl :: t) = line :: lines t.
Proof.
  revert cur. induction l as [|x l IH]; intros cur Hl.
  - exists (rev cur). reflexivity.
  - inversion Hl as [|? ? Hx Hl']; subst.
    destruct x; try contradiction; cbn [app lines_from]; apply IH; exact Hl'.
Qed.

Lemma lines_one_more (l : list Token) (t : ostream) :
  Forall (fun x => x <> TEndl) l ->
  List.length (lines ((l ++ [TEndl]) ++ t)) = S (List.length (lines t)).
Proof.
  intro Hl. rewrite <- app_assoc. cbn [app].
  destruct (lines_from_line l [] t Hl) as (line & E).
  unfold lines at 1. rewrite E. reflexivity.
Qed.

Lemma Steps_empty (k : nat) (w : World) :
  ProcessOneEvent w = Ok None -> Steps k w = Ok w.
Proof. intro H. destruct k; cbn [Steps]; [|rewrite H]; reflexivity. Qed.

(** X10: the observers only append, and never touch the simulation: however the
    notifications are interleaved with the events of the scheduler, the
    scheduler and the application end as if no observer had been called,
    what the three sinks held is kept in front, the trace stream gains one
    line per window change, the capture file one record per drop, and the
    console one line per window change or drop. *)
Theorem observers_only_append :
  forall (ns : list Notification) (o o' : Observed),
    deliver ns o = Ok o' ->
    Steps (List.length (filter is_event ns)) (sys_world (ob_sys o)) =
      Ok (sys_world (ob_sys o')) /\
    (exists s : ostream,
        sys_stream (ob_sys o') = sys_stream (ob_sys o) ++ s /\
        List.length (lines s) = List.length (filter is_cwnd ns)) /\
    (exists c : ostream,
        sys_clog (ob_sys o') = sys_clog (ob_sys o) ++ c /\
        List.length (lines c) =
          (List.length (filter is_cwnd ns) +
           List.length (filter is_drop ns))%nat) /\
    (exists f : list (Time * Packet),
        ob_file o' = ob_file o ++ f /\
        List.length f = List.length (filter is_drop ns)).
Proof.
  induction ns as [|n ns IH]; intros o o' H.
  - injection H as <-. split; [reflexivity|].
    split; [|split]; exists []; rewrite app_nil_r; auto.
  - cbn [deliver] in H. destruct n as [a b|p|]; cbn [notify bind] in H.
    + (* a window change *)
      destruct (IH _ _ H) as (Hw & (s & Es & Hs) & (c & Ec & Hc) & (f & Ef & Hf)).
      cbn [ob_sys ob_file CwndChange sys_world sys_clog sys_stream] in *.
      cbn [filter is_event is_cwnd is_drop length].
      split; [exact Hw|].
      split; [|split].
      * eexists. rewrite Es, <- app_assoc. split; [reflexivity|].
        transitivity (S (List.length (lines s))); [|rewrite Hs; lia].
        apply (lines_one_more
                 [TDouble _; TStr tab; TUint a; TStr tab; TUint b]).
        repeat constructor; discriminate.
      * eexists. rewrite Ec, <- app_assoc. split; [reflexivity|].
        transitivity (S (List.length (lines c))); [|rewrite Hc; lia].
        apply (lines_one_more [TDouble _; TStr tab; TUint b]).
        repeat constructor; discriminate.
      * exists f. auto.
    + (* a drop *)
      destruct (IH _ _ H) as (Hw & (s & Es & Hs) & (c & Ec & Hc) & (f & Ef & Hf)).
      cbn [ob_sys ob_file RxDrop sys_world sys_clog sys_stream] in *.
      cbn [filter is_event is_cwnd is_drop length].
      split; [exact Hw|].
      split; [|split].
      * exists s. auto.
      * eexists. rewrite Ec, <- app_assoc. split; [reflexivity|].
        transitivity (S (List.length (lines c))); [|rewrite Hc; lia].
        apply (lines_one_more [TStr Text.rxdrop_text; TDouble _]).
        repeat constructor; discriminate.
      * eexists. rewrite Ef, <- app_assoc. split; [reflexivity|].
        cbn [app length]. now rewrite Hf.
    + (* an event of the scheduler *)
      cbn [filter is_event is_cwnd is_drop length Steps].
      destruct (ProcessOneEvent (sys_world (ob_sys o))) as [[w|]|x] eqn:E;
        cbn [bind] in H; try discriminate.
      * destruct (IH _ _ H) as (Hw & Hs & Hc & Hf).
        cbn [ob_sys ob_file sys_world sys_clog sys_stream] in *.
        repeat split; assumption.
      * destruct (IH _ _ H) as (Hw & Hs & Hc & Hf).
        split; [|repeat split; assumption].
        rewrite (Steps_empty _ _ E) in Hw. exact Hw.
Qed.


End Model.

(** * The examples, on the nanosecond clock *)

(** The truncating nanosecond clock is within one nanosecond. *)
Lemma Seconds_ns_accurate : ns_accurate Seconds_ns.
Proof.
  intros x v Hv _ _. unfold Seconds_ns. rewrite Hv.
  pose proof (Qfloor_le (v * inject_Z 1000000000)) as Hl.
  pose proof (Qlt_floor (v * inject_Z 1000000000)) as Hu.
  rewrite inject_Z_plus in Hu.
  set (f := inject_Z (Qfloor (v * inject_Z 1000000000))) in *.
  unfold Qdiv. change (/ inject_Z 1000000000)%Q with (1 # 1000000000)%Q.
  change (inject_Z 1000000000) with 1000000000%Q in *.
  change (inject_Z 1) with 1%Q in Hu.
  unfold nanosecond. split; lra.
Qed.

Lemma ScheduleTx_unguarded_zero_rate_witness :
  1 < 1000 < 2 ^ 32 /\
  StartApplication Seconds_ns
    {| w_sched := Simulator.empty;
       w_app := Setup (Some (CreateSocket 3)) None 1040 1000 0 MyApp_new |} =
    Err DegenerateInterval.
Proof.
  split; [lia|].
  apply (ScheduleTx_unguarded_zero_rate Seconds_ns Simulator.empty
           (CreateSocket 3) None 1040 1000 MyApp_new); lia.
Defined.

Lemma StartApplication_zero_packets_witness :
  exists w',
    StartApplication Seconds_ns
      {| w_sched := Simulator.empty;
         w_app := Setup (Some (CreateSocket 3)) None 1040 0 1000000
                    MyApp_new |} = Ok w' /\
    m_packetsSent (w_app w') = 1 /\
    packets_on_wire w' = 1%nat.
Proof.
  destruct (StartApplication_zero_packets Seconds_ns
              {| w_sched := Simulator.empty;
                 w_app := Setup (Some (CreateSocket 3)) None 1040 0 1000000
                            MyApp_new |} (CreateSocket 3) eq_refl eq_refl)
    as (w' & H1 & H2 & H3 & _).
  exists w'. split; [exact H1|]. split; [exact H3|].
  unfold packets_on_wire. rewrite H2. reflexivity.
Defined.

Lemma packets_sent_by_run_witness :
  0 < 125 /\ 125 * 8 < 2 ^ 32 /\ 0 < 1000 < 2 ^ 32 /\ 0 < 3000 /\
  (0 < 1)%Q /\ ns_accurate Seconds_ns /\
  (rounded_interval Seconds_ns 125 3000 == 333333333 # 1000000000)%Q /\
  (exists (fuel : nat) (wf : World),
     Run Seconds_ns fuel (generator_world 3 None 125 1000 3000 0%Q 1%Q) =
       Some (Ok wf) /\
     Z.of_nat (packets_on_wire wf) = 4) /\
  (exists w : World,
     Steps Seconds_ns 1000 (main_generator_world Seconds_ns) = Ok w /\
     packets_on_wire w = 1000%nat /\
     m_running (w_app w) = true /\
     pending_sends w = []).
Proof.
  split; [lia|]. split; [lia|]. split; [lia|]. split; [lia|].
  split; [reflexivity|]. split; [exact Seconds_ns_accurate|].
  split; [vm_compute; reflexivity|]. split.
  - destruct (proj1 (packets_sent_by_run Seconds_ns) 3%nat None 125 1000 3000
                0%Q 1%Q ltac:(lia) ltac:(lia) ltac:(lia) ltac:(lia)
                ltac:(reflexivity))
      as (fuel & wf & Hrun & _ & _ & _ & _ & Hc & _).
    exists fuel, wf. split; [exact Hrun|]. rewrite Hc.
    + vm_compute. reflexivity.
    + vm_compute. reflexivity.
  - destruct (proj2 (proj2 (packets_sent_by_run Seconds_ns))
                Seconds_ns_accurate)
      as (w & _ & _ & Hs & Hp & _ & _ & _ & _ & Hr & Hq & _).
    exists w. split; [exact Hs|]. split; [exact Hp|].
    split; [exact Hr|exact Hq].
Defined.

(** C1 as stated fails when the duration is not a whole number of
    intervals: stopped after 20 ms, the generator of [main] (interval
    8.32 ms in the spec, 8.319999 ms on the nanosecond clock) has sent three
    packets, while only two intervals fit before the stop. It also fails by
    the rounding of the interval: 125 bytes at 3000 bps for one second are
    four packets, at 0, 333333333, 666666666 and 999999999 ns, where the
    spec's interval of a third of a second fits three times. *)
Lemma short_run_sends_three :
  exists wf wg : World,
    Run Seconds_ns 5 short_run_world = Some (Ok wf) /\
    packets_on_wire wf = 3%nat /\
    m_packetsSent (w_app wf) = 3 /\
    spec_packets_sent 1040 1000 1000000 0%Q (1 # 50)%Q = 2 /\
    Z.of_nat (packets_on_wire wf) <>
      spec_packets_sent 1040 1000 1000000 0%Q (1 # 50)%Q /\
    Run Seconds_ns 6 (generator_world 3 None 125 1000 3000 0%Q 1%Q) =
      Some (Ok wg) /\
    Forall2 Qeq (tx_times wg)
      [0%Q; 333333333 # 1000000000; 666666666 # 1000000000;
       999999999 # 1000000000] /\
    spec_packets_sent 125 1000 3000 0%Q 1%Q = 3 /\
    Z.of_nat (packets_on_wire wg) <> spec_packets_sent 125 1000 3000 0%Q 1%Q.
Proof.
  eexists. eexists. split; [vm_compute; reflexivity|].
  split; [reflexivity|]. split; [reflexivity|]. split; [reflexivity|].
  split; [vm_compute; discriminate|].
  split; [vm_compute; reflexivity|].
  split; [repeat constructor; vm_compute; reflexivity|].
  split; [reflexivity|].
  vm_compute. discriminate.
Qed.

Lemma transmit_times_progression_witness :
  0 < 1000 < 2 ^ 32 /\ 0 < 1000000 /\ (0 < 20)%Q /\
  exists (fuel : nat) (wf : World),
    Run Seconds_ns fuel (generator_world 3 None 1040 1000 1000000 0%Q 20%Q) =
      Some (Ok wf) /\
    (nth 0 (tx_times wf) 0 == 0)%Q.
Proof.
  split; [lia|]. split; [lia|]. split; [reflexivity|].
  destruct (transmit_times_progression Seconds_ns 3%nat None 1040 1000 1000000
              0%Q 20%Q ltac:(lia) ltac:(lia) ltac:(reflexivity))
    as (fuel & wf & Hrun & HN & Htx).
  exists fuel, wf. split; [exact Hrun|].
  rewrite (Htx 0%nat HN). reflexivity.
Defined.

(** C2, evaluated at a packet size of [2^29] bytes: [m_packetSize * 8] wraps
    to 0 in [uint32_t], the interval is 0 and the three packets are all sent
    at the start time, where the spec's interval [packetSize * 8 / dataRate]
    is 4294.967296 s. *)
Theorem large_packet_sends_at_once :
  exists wf : World,
    Run Seconds_ns 5 large_packet_world = Some (Ok wf) /\
    List.length (tx_times wf) = 3%nat /\
    Forall (fun t => (t == 0)%Q) (tx_times wf) /\
    (code_interval Seconds_ns 536870912 1000000 == 0)%Q /\
    (spec_interval 536870912 1000000 == 4294967296 # 1000000)%Q /\
    ~ (nth 1 (tx_times wf) 0 - nth 0 (tx_times wf) 0 ==
       spec_interval 536870912 1000000)%Q.
Proof.
  eexists. split; [vm_compute; reflexivity|].
  split; [reflexivity|].
  split; [repeat constructor|].
  split; [vm_compute; reflexivity|]. split; [reflexivity|].
  vm_compute. discriminate.
Qed.



(** C6 as stated fails: started twice at time 0, the generator of [main] has
    its counter reset by each start (it is 1 after the first start and 1
    again after the second, with two packets sent), and two send events are
    pending after the second start. *)
Lemma double_start_two_chains :
  exists w1 w2 : World,
    Steps Seconds_ns 1 double_start_world = Ok w1 /\
    Steps Seconds_ns 2 double_start_world = Ok w2 /\
    m_packetsSent (w_app w1) = 1 /\ packets_on_wire w1 = 1%nat /\
    List.length (pending_sends w1) = 1%nat /\
    m_packetsSent (w_app w2) = 1 /\ packets_on_wire w2 = 2%nat /\
    List.length (pending_sends w2) = 2%nat.
Proof.
  eexists. eexists.
  split; [vm_compute; reflexivity|]. split; [vm_compute; reflexivity|].
  repeat split; reflexivity.
Qed.

Lemma SendPacket_when_not_running_witness :
  exists w' : World,
    SendPacket Seconds_ns
      {| w_sched := Simulator.empty;
         w_app := Setup (Some (CreateSocket 3)) None 1040 1000
                    1000000 MyApp_new |} = Ok w' /\
    packets_on_wire w' = 1%nat /\
    sc_events (w_sched w') = [].
Proof.
  destruct (SendPacket_when_not_running Seconds_ns
              {| w_sched := Simulator.empty;
                 w_app := Setup (Some (CreateSocket 3)) None 1040 1000
                            1000000 MyApp_new |} (CreateSocket 3)
              eq_refl eq_refl)
    as (w' & H1 & H2 & _ & _ & H3 & _).
  exists w'. split; [exact H1|]. split.
  - unfold packets_on_wire. rewrite H2. reflexivity.
  - rewrite H3. reflexivity.
Defined.

Lemma Steps_never_fault_witness :
  exists w' : World,
    Steps Seconds_ns 3 double_start_world = Ok w' /\
    m_socket (w_app w') <> None.
Proof.
  destruct (Steps_never_fault Seconds_ns 3 double_start_world)
    as (w' & H & Hk & _).
  - discriminate.
  - discriminate.
  - exists w'. split; assumption.
Defined.

Lemma no_transmission_after_stop_witness :
  exists w w1 : World,
    Steps Seconds_ns 3 short_run_world = Ok w /\
    ProcessOneEvent Seconds_ns w = Ok (Some w1) /\
    forall (k : nat) (w2 : World),
      Steps Seconds_ns k w1 = Ok w2 -> socket_log w2 = socket_log w1.
Proof.
  assert (Hs : exists w, Steps Seconds_ns 3 short_run_world = Ok w /\
             exists e q, sc_events (w_sched w) = e :: q /\
               ev_cb e = CbStopApplication /\ ev_cancel e = false /\
               (forall x, In x q -> is_start x = false) /\
               exists w1, ProcessOneEvent Seconds_ns w = Ok (Some w1)).
  { eexists. split; [vm_compute; reflexivity|].
    eexists. eexists. split; [reflexivity|].
    split; [reflexivity|]. split; [reflexivity|].
    split; [intros x [<-|[]]; reflexivity|].
    eexists. vm_compute. reflexivity. }
  destruct Hs as (w & Hw & e & q & Eq & Hcb & Hc & Hst & w1 & Hp).
  exists w, w1. split; [exact Hw|]. split; [exact Hp|].
  intros k w2 Hk.
  assert (Hl : lifecycle Seconds_ns w).
  { apply (lifecycle_Steps Seconds_ns 3 short_run_world); [|exact Hw].
    apply lifecycle_generator. lia. }
  destruct (no_transmission_after_stop Seconds_ns w w1 e q Hl Eq Hcb Hc Hst Hp)
    as (_ & _ & H).
  exact (proj1 (H k w2 Hk)).
Defined.

Lemma counter_counts_packets_witness :
  exists w : World,
    Steps Seconds_ns 3 short_run_world = Ok w /\
    m_packetsSent (w_app w) = Z.of_nat (packets_on_wire w) /\
    m_packetsSent (w_app w) = 3.
Proof.
  eexists. split; [vm_compute; reflexivity|].
  split; [|reflexivity].
  refine (proj1 (counter_counts_packets Seconds_ns
                   (SetStopTime (1 # 50)%Q
                      (SetStartTime 0%Q Simulator.empty))
                   3%nat (Some (ipv4 10 0 0 2, 1090)) 1040 1000 1000000
                   3%nat _ (agenda_generator _ _) _ _)).
  - lia.
  - vm_compute. reflexivity.
Defined.

Lemma run_ends_stopped_and_closed_witness :
  exists wf : World,
    Run Seconds_ns 1002 (main_generator_world Seconds_ns) = Some (Ok wf) /\
    sc_events (w_sched wf) = [] /\
    m_running (w_app wf) = false.
Proof.
  destruct (run_ends_stopped_and_closed Seconds_ns 3%nat
              (Some (ipv4 10 0 0 2, 1090)) 1040 1000 1000000
              (Seconds_ns (Z_to_double 0)) (Seconds_ns (Z_to_double 20))
              ltac:(lia) ltac:(lia) ltac:(vm_compute; reflexivity))
    as (wf & log & Hrun & Hq & Hr & _).
  exists wf. split; [|split; assumption].
  exact Hrun.
Defined.

Lemma early_stop_leaves_budget_witness :
  0 < 1000 < 2 ^ 32 /\ 0 < 1000000 /\ (0 < 1 # 50)%Q /\
  exists (fuel : nat) (wf : World),
    Run Seconds_ns fuel short_run_world = Some (Ok wf) /\
    m_packetsSent (w_app wf) < 1000.
Proof.
  split; [lia|]. split; [lia|]. split; [reflexivity|].
  destruct (early_stop_leaves_budget Seconds_ns 3%nat
              (Some (ipv4 10 0 0 2, 1090))
              1040 1000 1000000 0%Q (1 # 50)%Q
              ltac:(lia) ltac:(lia) ltac:(reflexivity))
    as (fuel & wf & Hrun & Hs & _).
  - apply Qle_bool_iff. vm_compute. reflexivity.
  - exists fuel, wf. split; assumption.
Defined.

Lemma StartApplication_after_stop_witness :
  exists w' : World,
    StartApplication Seconds_ns
      (StopApplication (main_generator_world Seconds_ns)) = Ok w' /\
    m_running (w_app w') = true /\
    option_map sk_closed (m_socket (w_app w')) = Some true.
Proof.
  destruct (StartApplication_after_stop Seconds_ns
              (main_generator_world Seconds_ns) (CreateSocket 3)
              eq_refl) as (w' & H & Hr & _ & _ & Hc).
  - right. discriminate.
  - exists w'. repeat split; assumption.
Defined.

Lemma observers_only_append_witness :
  exists o' : Observed,
    deliver Seconds_ns
      [NoteEvent; NoteCwnd 536 1072; NoteDrop 1040; NoteEvent]
      {| ob_sys := {| sys_world := short_run_world; sys_clog := [];
                      sys_stream := [] |};
         ob_file := [] |} = Ok o' /\
    Steps Seconds_ns 2 short_run_world = Ok (sys_world (ob_sys o')) /\
    List.length (ob_file o') = 1%nat.
Proof.
  eexists. split; [vm_compute; reflexivity|].
  destruct (observers_only_append Seconds_ns
              [NoteEvent; NoteCwnd 536 1072; NoteDrop 1040; NoteEvent]
              {| ob_sys := {| sys_world := short_run_world; sys_clog := [];
                              sys_stream := [] |};
                 ob_file := [] |} _ ltac:(vm_compute; reflexivity))
    as (Hw & _ & _ & (f & Ef & Hf)).
  split; [exact Hw|]. rewrite Ef. exact Hf.
Defined.
